(** * State Library of Victoria: downloading IIIF images from a Handle url

    A shallow embedding of the code cell of [download_image_from_iiif.ipynb]
    ([get_pid], [get_image_ids], [construct_image_url], [download_image])
    and the properties its specification states about it.

    Python values are modelled as follows.
    - [str]: [string] (8-bit characters; on them [\d] is the class 0-9).
    - a parsed JSON document: the inductive [json]; a JSON object is a
      Python [dict] with [str] keys, modelled as [gmap string json].
    - [max_width], [max_height]: [option Z] ([None] or an [int]).
    - exceptions: the inductive [exn], one constructor per built-in class
      the code can raise; [exn_name] gives the Python class name.
    - effects (HTTP requests, session objects, the file system, notebook
      display): a state and exception monad [M] over the record [world],
      which also keeps the trace of effects.
    - a session object: the exchanges (url requested, response) it has
      had; which cookies the HTTP client attaches to the next request is
      the client's own rule, the parameter [cookie_header].
    - the file system: a directory tree without symbolic links, a finite
      map from the resolved path of a node to the node. *)

From stdpp Require Import gmap strings list fin_maps pretty.
From Stdlib Require Import Ascii.

(** ** Parsed JSON documents *)

#[warnings="-register-all"]
Inductive json :=
| JNull
| JBool (b : bool)
| JInt (z : Z)
| JFloat (literal : string)
| JStr (s : string)
| JArr (l : list json)
| JObj (m : gmap string json).

(** ** Exceptions and results *)

Inductive exn :=
| KeyError (key : json)
| IndexError
| TypeError
| JSONDecodeError
| RequestException
| FileExistsError
| FileNotFoundError
| NotADirectoryError
| IsADirectoryError
| OSError (errno : string)
| ValueError.

Definition exn_name (e : exn) : string :=
  match e with
  | KeyError _ => "KeyError"
  | IndexError => "IndexError"
  | TypeError => "TypeError"
  | JSONDecodeError => "JSONDecodeError"
  | RequestException => "RequestException"
  | FileExistsError => "FileExistsError"
  | FileNotFoundError => "FileNotFoundError"
  | NotADirectoryError => "NotADirectoryError"
  | IsADirectoryError => "IsADirectoryError"
  | OSError _ => "OSError"
  | ValueError => "ValueError"
  end.

Inductive result (A : Type) :=
| Ok (a : A)
| Raise (e : exn).
Arguments Ok {A} a.
Arguments Raise {A} e.

Global Instance result_ret : MRet result := λ A a, Ok a.

Global Instance result_bind : MBind result := λ A B k r,
  match r with
  | Ok a => k a
  | Raise e => Raise e
  end.

(** ** Python subscripting and iteration on JSON values *)

(** [v[k]] for a [str] key [k]: only a dict accepts it. *)
Definition getitem_key (v : json) (k : string) : result json :=
  match v with
  | JObj m =>
      match m !! k with
      | Some x => Ok x
      | None => Raise (KeyError (JStr k))
      end
  | _ => Raise TypeError
  end.

(** [v[0]]: first element of a list, first character of a string; a dict
    parsed from JSON has no key [0]. *)
Definition getitem_0 (v : json) : result json :=
  match v with
  | JArr l =>
      match l with
      | x :: _ => Ok x
      | [] => Raise IndexError
      end
  | JStr s =>
      match s with
      | String c _ => Ok (JStr (String c ""))
      | EmptyString => Raise IndexError
      end
  | JObj _ => Raise (KeyError (JInt 0))
  | _ => Raise TypeError
  end.

Fixpoint chars (s : string) : list json :=
  match s with
  | EmptyString => []
  | String c s' => JStr (String c "") :: chars s'
  end.

(** [for x in v]: the elements of a list, the keys of a dict, the
    characters of a string. *)
Definition iterate (v : json) : result (list json) :=
  match v with
  | JArr l => Ok l
  | JObj m => Ok (JStr <$> (map_to_list m).*1)
  | JStr s => Ok (chars s)
  | _ => Raise TypeError
  end.

(** ** [get_image_ids] *)

(** The loop body: [canvas['images'][0]['resource']['service']['@id']]. *)
Definition canvas_image_id (canvas : json) : result json :=
  images ← getitem_key canvas "images";
  image ← getitem_0 images;
  resource ← getitem_key image "resource";
  service ← getitem_key resource "service";
  getitem_key service "@id".

Fixpoint for_canvases (canvases : list json) (image_ids : list json)
  : result (list json) :=
  match canvases with
  | [] => Ok image_ids
  | canvas :: rest =>
      image_id ← canvas_image_id canvas;
      for_canvases rest (image_ids ++ [image_id])
  end.

Definition get_image_ids (manifest : json) : result (list json) :=
  sequences ← getitem_key manifest "sequences";
  sequence ← getitem_0 sequences;
  canvases ← getitem_key sequence "canvases";
  items ← iterate canvases;
  for_canvases items [].

(** ** [re.search(r'entity=(IE\d+)', url)] *)

Definition is_digit (c : ascii) : bool :=
  let n := nat_of_ascii c in (48 <=? n)%nat && (n <=? 57)%nat.

Fixpoint take_digits (s : string) : string :=
  match s with
  | String c s' => if is_digit c then String c (take_digits s') else ""
  | EmptyString => ""
  end.

Fixpoint strip_prefix (p s : string) : option string :=
  match p, s with
  | EmptyString, _ => Some s
  | String a p', String b s' =>
      if Ascii.eqb a b then strip_prefix p' s' else None
  | String _ _, EmptyString => None
  end.

(** A match of the pattern anchored at the start of [s]: group 1. *)
Definition match_entity_here (s : string) : option string :=
  match strip_prefix "entity=IE" s with
  | Some rest =>
      match take_digits rest with
      | EmptyString => None
      | ds => Some ("IE" +:+ ds)
      end
  | None => None
  end.

(** [re.search] tries the start positions from left to right. *)
Fixpoint search_entity (s : string) : option string :=
  match match_entity_here s with
  | Some g => Some g
  | None =>
      match s with
      | String _ s' => search_entity s'
      | EmptyString => None
      end
  end.

(** ** Formatting values in f-strings *)

(** [max_width] and [max_height]: [None] or an [int]. *)
Definition truthy (v : option Z) : bool :=
  match v with
  | Some z => negb (z =? 0)%Z
  | None => false
  end.

Definition str_size (v : option Z) : string :=
  match v with
  | Some z => pretty z
  | None => "None"
  end.

(** [pid] is the result of [get_pid]: a [str], or [None]. *)
Definition str_pid (pid : option string) : string :=
  match pid with
  | Some s => s
  | None => "None"
  end.

(** ** [pathlib.Path] on a relative path

    [Path(s)] splits [s] at the slashes and drops the empty components and
    the components [.]; [str] joins what is left with slashes. *)

Fixpoint path_parts (s : string) (cur : string) : list string :=
  match s with
  | EmptyString => [cur]
  | String c s' =>
      if Ascii.eqb c "/" then cur :: path_parts s' ""
      else path_parts s' (cur +:+ String c "")
  end.

Definition keep_part (p : string) : bool :=
  negb (String.eqb p "") && negb (String.eqb p ".").

Fixpoint join_parts (ps : list string) : string :=
  match ps with
  | [] => ""
  | [p] => p
  | p :: ps' => p +:+ "/" +:+ join_parts ps'
  end.

Definition Path (s : string) : string :=
  join_parts (List.filter keep_part (path_parts s "")).

(** The components of a path. *)
Definition path_components (p : string) : list string :=
  List.filter keep_part (path_parts p "").

(** ** The world: sessions, file system, trace of effects *)

Inductive node :=
| Dir
| File (data : string).

Record response := {
  r_url : string;                   (* the url after all redirects *)
  r_status : Z;
  r_content : string;
  r_cookies : gmap string string    (* cookies set on the way: name, value *)
}.

(** An exchange of a session: the url requested and the response. *)
Definition exchange : Type := string * response.

Inductive event :=
| EvGet (session : option nat) (url : string) (cookies : gmap string string)
| EvMkdir (path : string)
| EvWrite (path : string) (data : string)
| EvDisplay (html : string).

Record world := {
  w_sessions : list (list exchange);  (* the exchanges of each Session *)
  w_cwd : list string;  (* the working directory: its name, its parent's, ... *)
  w_fs : gmap string node;
  w_trace : list event
}.

Definition M (A : Type) : Type := world → result A * world.

Global Instance M_ret : MRet M := λ A a w, (Ok a, w).

Global Instance M_bind : MBind M := λ A B k m w,
  match m w with
  | (Ok a, w') => k a w'
  | (Raise e, w') => (Raise e, w')
  end.

Definition lift {A} (r : result A) : M A := λ w, (r, w).

Definition emit (e : event) (w : world) : world :=
  {| w_sessions := w_sessions w; w_cwd := w_cwd w; w_fs := w_fs w;
     w_trace := w_trace w ++ [e] |}.

Definition set_history (s : nat) (history : list exchange) (w : world)
  : world :=
  {| w_sessions := <[s := history]> (w_sessions w); w_cwd := w_cwd w;
     w_fs := w_fs w; w_trace := w_trace w |}.

Definition set_fs (fs : gmap string node) (w : world) : world :=
  {| w_sessions := w_sessions w; w_cwd := w_cwd w; w_fs := fs;
     w_trace := w_trace w |}.

(** ** Paths on the file system

    The file system is seen from the working directory. A directory is
    reached by going [ups] levels up and then down the components [downs]
    (the innermost first); the key of a node is that path, as many [..]
    as levels and the components, joined by slashes. Going down from an
    ancestor of the working directory into the next one towards the
    working directory leads back to that one, so that every node has one
    key. The working directory and its ancestors are directories and are
    not in the map. There are no links, and the process may search every
    directory and write every file. The limits on names are those of
    Linux. *)

Definition NAME_MAX : nat := 255.
Definition PATH_MAX : nat := 4096.

Fixpoint has_nul (s : string) : bool :=
  match s with
  | String c s' => Ascii.eqb c Ascii.zero || has_nul s'
  | EmptyString => false
  end.

Definition location : Type := nat * list string.

Definition here : location := (0, []).

Definition key_of (loc : location) : string :=
  join_parts (replicate loc.1 ".." ++ rev loc.2).

(** The directory above; the root is its own parent. *)
Definition up (cwd : list string) (loc : location) : location :=
  match loc.2 with
  | _ :: rest => (loc.1, rest)
  | [] => if (loc.1 <? length cwd)%nat then (S loc.1, []) else loc
  end.

(** The entry [c] of a directory. *)
Definition down (cwd : list string) (loc : location) (c : string) : location :=
  match loc with
  | (S n, []) => if decide (cwd !! n = Some c) then (n, []) else (S n, [c])
  | (n, downs) => (n, c :: downs)
  end.

Definition node_at (fs : gmap string node) (loc : location) : option node :=
  match loc.2 with
  | [] => Some Dir
  | _ => fs !! key_of loc
  end.

(** Where the components [parts] lead from [loc], whatever the file
    system holds. *)
Fixpoint climb (cwd : list string) (loc : location) (parts : list string)
  : location :=
  match parts with
  | [] => loc
  | c :: rest =>
      if String.eqb c ".." then climb cwd (up cwd loc) rest
      else climb cwd (down cwd loc c) rest
  end.

(** The same, as the kernel walks it: each component but [..] must name
    an existing directory. *)
Fixpoint walk (fs : gmap string node) (cwd : list string) (loc : location)
    (parts : list string) : result location :=
  match parts with
  | [] => Ok loc
  | c :: rest =>
      if (NAME_MAX <? String.length c)%nat then Raise (OSError "ENAMETOOLONG")
      else if String.eqb c ".." then walk fs cwd (up cwd loc) rest
      else
        match node_at fs (down cwd loc c) with
        | Some Dir => walk fs cwd (down cwd loc c) rest
        | Some (File _) => Raise NotADirectoryError
        | None => Raise FileNotFoundError
        end
  end.

Fixpoint split_last {A} (l : list A) : option (list A * A) :=
  match l with
  | [] => None
  | x :: l' =>
      match split_last l' with
      | None => Some ([], x)
      | Some (init, y) => Some (x :: init, y)
      end
  end.

(** [open(p, 'wb')]: the key of the file to create or truncate. *)
Definition resolve (fs : gmap string node) (cwd : list string) (p : string)
  : result string :=
  if has_nul p then Raise ValueError
  else if (PATH_MAX <=? String.length p)%nat then
    Raise (OSError "ENAMETOOLONG")
  else
    match split_last (path_components p) with
    | None => Raise IsADirectoryError
    | Some (dirs, name) =>
        loc ← walk fs cwd here dirs;
        if (NAME_MAX <? String.length name)%nat then
          Raise (OSError "ENAMETOOLONG")
        else if String.eqb name ".." then Raise IsADirectoryError
        else
          match node_at fs (down cwd loc name) with
          | Some Dir => Raise IsADirectoryError
          | _ => Ok (key_of (down cwd loc name))
          end
    end.

(** The key of the path [p], whatever the file system holds. *)
Definition target_key (cwd : list string) (p : string) : string :=
  match split_last (path_components p) with
  | None => ""
  | Some (dirs, name) => key_of (down cwd (climb cwd here dirs) name)
  end.

Definition dquote : string := String (ascii_of_nat 34) "".

Section Downloader.

(** The network: what a GET of a url with the given cookies comes back
    with, after redirects; [None] when the request raises. *)
Variable serve : string → gmap string string → option response.

(** The cookie rules of the HTTP client: the cookies a session attaches
    to a request for a url, out of those the responses of its earlier
    exchanges set (scoping by domain, path and scheme, lifetime,
    replacement). *)
Variable cookie_header : list exchange → string → gmap string string.

(** The JSON decoder behind [response.json()]; [None] when the body is
    not JSON. *)
Variable json_loads : string → option json.

(** [repr] of the JSON values that are neither [str], [int], [bool] nor
    [None] (floats, lists, dicts), used when such a value is formatted in
    an f-string. *)
Variable py_repr : json → string.

Definition py_str (v : json) : string :=
  match v with
  | JStr s => s
  | JInt z => pretty z
  | JNull => "None"
  | JBool true => "True"
  | JBool false => "False"
  | _ => py_repr v
  end.

(** [requests.get(url)]: a request outside any session, no cookie sent. *)
Definition requests_get (url : string) : M response := λ w,
  let w' := emit (EvGet None url ∅) w in
  match serve url ∅ with
  | Some r => (Ok r, w')
  | None => (Raise RequestException, w')
  end.

(** [requests.Session()]: a new session object, which has had no
    exchange; the object is named by its position in [w_sessions]. *)
Definition Session : M nat := λ w,
  (Ok (length (w_sessions w)),
   {| w_sessions := w_sessions w ++ [[]]; w_cwd := w_cwd w; w_fs := w_fs w;
      w_trace := w_trace w |}).

(** The cookies a session with the exchanges [history] sends to [url]:
    none when it has had no exchange (its jar is empty), otherwise what
    the rules of the client select. *)
Definition session_cookies (history : list exchange) (url : string)
  : gmap string string :=
  match history with
  | [] => ∅
  | _ => cookie_header history url
  end.

(** [s.get(url)]: the request carries the cookies of the session for
    [url]; the exchange is added to the session. *)
Definition session_get (s : nat) (url : string) : M response := λ w,
  let history := default [] (w_sessions w !! s) in
  let cookies := session_cookies history url in
  let w' := emit (EvGet (Some s) url cookies) w in
  match serve url cookies with
  | Some r => (Ok r, set_history s (history ++ [(url, r)]) w')
  | None => (Raise RequestException, w')
  end.

(** [response.json()] *)
Definition response_json (r : response) : M json :=
  match json_loads (r_content r) with
  | Some v => mret v
  | None => lift (Raise JSONDecodeError)
  end.

(** [Path(p).mkdir(parents=True, exist_ok=True)] for a single
    component [p]. The trace records the call, also when it raises. *)
Definition mkdir (p : string) : M unit := λ w,
  let w' := emit (EvMkdir p) w in
  match w_fs w !! p with
  | Some Dir => (Ok (), w')
  | Some (File _) => (Raise FileExistsError, w')
  | None => (Ok (), set_fs (<[p := Dir]> (w_fs w)) w')
  end.

(** [p.write_bytes(data)]: creates or truncates the file, then writes.
    The trace records the call, also when it raises. *)
Definition write_bytes (p : string) (data : string) : M unit := λ w,
  let w' := emit (EvWrite p data) w in
  match resolve (w_fs w) (w_cwd w) p with
  | Ok key => (Ok (), set_fs (<[key := File data]> (w_fs w)) w')
  | Raise e => (Raise e, w')
  end.

(** [display(HTML(html))] *)
Definition display (html : string) : M unit := λ w,
  (Ok (), emit (EvDisplay html) w).

(** *** [get_pid] *)
Definition get_pid (handle_url : string) : M (option string) :=
  response ← requests_get handle_url;
  mret (search_entity (r_url response)).

(** *** [construct_image_url] *)
Definition size_token (max_width max_height : option Z) : string :=
  if truthy max_width && truthy max_height then
    "!" +:+ str_size max_width +:+ "," +:+ str_size max_height
  else if truthy max_width then
    str_size max_width +:+ ","
  else if truthy max_height then
    "," +:+ str_size max_height
  else
    "max".

Definition construct_image_url (image_id : json) (image_type : string)
    (max_width max_height : option Z) : string :=
  let size := size_token max_width max_height in
  py_str image_id +:+ "/full/" +:+ size +:+ "/0/default." +:+ image_type.

(** *** [download_image] *)
Definition manifest_url (pid : option string) : string :=
  "https://rosetta.slv.vic.gov.au/delivery/iiif/presentation/2.1/"
    +:+ str_pid pid +:+ "/manifest".

Definition filename (pid : option string) (index : nat)
    (image_type : string) : string :=
  Path ("images/slv-" +:+ str_pid pid +:+ "-" +:+ pretty index +:+ "."
          +:+ image_type).

Definition image_html (filename : string) : string :=
  "<a href=" +:+ dquote +:+ filename +:+ dquote +:+ "><img width=500 src="
    +:+ dquote +:+ filename +:+ dquote +:+ "></a>".

Definition displayable (image_type : string) : bool :=
  String.eqb image_type "jpg" || String.eqb image_type "png".

(** The loop [for index, image_id in enumerate(image_ids)], from
    position [index] on. *)
Fixpoint for_images (s : nat) (pid : option string) (image_type : string)
    (max_width max_height : option Z) (index : nat) (image_ids : list json)
    : M unit :=
  match image_ids with
  | [] => mret ()
  | image_id :: rest =>
      let filename := filename pid index image_type in
      let image_url :=
        construct_image_url image_id image_type max_width max_height in
      response ← session_get s image_url;
      _ ← write_bytes filename (r_content response);
      _ ← (if displayable image_type then display (image_html filename)
           else mret ());
      for_images s pid image_type max_width max_height (S index) rest
  end.

Definition download_image (handle_url : string) (image_type : string)
    (max_width max_height : option Z) : M unit :=
  pid ← get_pid handle_url;
  let manifest_url := manifest_url pid in
  s ← Session;
  response ← session_get s manifest_url;
  manifest ← response_json response;
  image_ids ← lift (get_image_ids manifest);
  _ ← mkdir "images";
  for_images s pid image_type max_width max_height 0 image_ids.

(** The call with the default arguments
    [image_type='jpg', max_width=None, max_height=None]. *)
Definition download_image_default (handle_url : string) : M unit :=
  download_image handle_url "jpg" None None.

(** *** Slices and traces of [download_image] *)

(** The manifest fetch inside [download_image], on its own: the manifest
    url, the GET through the session [s], the decoding of the body. *)
Definition fetch_manifest (s : nat) (pid : option string) : M json :=
  let manifest_url := manifest_url pid in
  response ← session_get s manifest_url;
  response_json response.

Definition display_events (image_type filename : string) : list event :=
  if displayable image_type then [EvDisplay (image_html filename)] else [].

(** The exceptions [write_bytes] raises. *)
Definition write_error (e : exn) : Prop :=
  exn_name e ∈
    ["IsADirectoryError"; "NotADirectoryError"; "FileNotFoundError";
     "OSError"; "ValueError"].

(** The exchanges of the session requests of a trace. *)
Definition exchanges_of (events : list event) : list exchange :=
  omap (λ e, match e with
             | EvGet (Some _) url cookies =>
                 match serve url cookies with
                 | Some r => Some (url, r)
                 | None => None
                 end
             | _ => None
             end) events.

(** The traces of the loop of [download_image]: [pages s pid image_type
    max_width max_height history index image_ids events res] when the
    loop, entered at position [index] with the identifiers [image_ids]
    left and the session [s] having had the exchanges [history],
    performs [events] and ends with [res]. *)
Inductive pages (s : nat) (pid : option string) (image_type : string)
    (max_width max_height : option Z)
  : list exchange → nat → list json → list event → result unit → Prop :=
| pages_done history index :
    pages s pid image_type max_width max_height history index [] [] (Ok ())
| pages_get_raises history index image_id rest :
    let url := construct_image_url image_id image_type max_width max_height in
    serve url (session_cookies history url) = None →
    pages s pid image_type max_width max_height history index
      (image_id :: rest)
      [EvGet (Some s) url (session_cookies history url)]
      (Raise RequestException)
| pages_write_raises history index image_id rest r e :
    let url := construct_image_url image_id image_type max_width max_height in
    serve url (session_cookies history url) = Some r →
    write_error e →
    pages s pid image_type max_width max_height history index
      (image_id :: rest)
      [EvGet (Some s) url (session_cookies history url);
       EvWrite (filename pid index image_type) (r_content r)]
      (Raise e)
| pages_next history index image_id rest r events res :
    let url := construct_image_url image_id image_type max_width max_height in
    serve url (session_cookies history url) = Some r →
    pages s pid image_type max_width max_height (history ++ [(url, r)])
      (S index) rest events res →
    pages s pid image_type max_width max_height history index
      (image_id :: rest)
      (EvGet (Some s) url (session_cookies history url)
       :: EvWrite (filename pid index image_type) (r_content r)
       :: display_events image_type (filename pid index image_type)
       ++ events)
      res.

End Downloader.

(** The world of [download_image] once the session exists and the
    manifest request has been sent, and once its response [r] is in. *)
Definition manifest_requested (handle_url : string) (pid : option string)
    (w : world) : world :=
  {| w_sessions := w_sessions w ++ [[]];
     w_cwd := w_cwd w;
     w_fs := w_fs w;
     w_trace := w_trace w ++
       [EvGet None handle_url ∅;
        EvGet (Some (length (w_sessions w))) (manifest_url pid) ∅] |}.

Definition manifest_received (handle_url : string) (pid : option string)
    (r : response) (w : world) : world :=
  {| w_sessions := w_sessions w ++ [[(manifest_url pid, r)]];
     w_cwd := w_cwd w;
     w_fs := w_fs w;
     w_trace := w_trace w ++
       [EvGet None handle_url ∅;
        EvGet (Some (length (w_sessions w))) (manifest_url pid) ∅] |}.

(** The exchanges of the session [s]. *)
Definition history_of (w : world) (s : nat) : list exchange :=
  default [] (w_sessions w !! s).

(** The files written and the urls requested through a session, in the
    order of a trace. *)
Definition writes_of (events : list event) : list (string * string) :=
  omap (λ e, match e with EvWrite p d => Some (p, d) | _ => None end) events.

Definition session_gets_of (events : list event) : list string :=
  omap (λ e, match e with EvGet (Some _) u _ => Some u | _ => None end) events.

(** A sequence of successful [write_bytes] on a directory, each given by
    the key of its file and the data. *)
Definition apply_writes (ws : list (string * string))
    (fs : gmap string node) : gmap string node :=
  foldl (λ fs pd, <[pd.1 := File pd.2]> fs) fs ws.

Definition same_dirs (fs fs' : gmap string node) : Prop :=
  ∀ p, fs !! p = Some Dir ↔ fs' !! p = Some Dir.

(** ** Specification-level definitions *)

(** The size segment as the specification words it, by the shape of the
    pair: both present, only width, only height, neither. *)
Definition spec_size_token (max_width max_height : option Z) : string :=
  match max_width, max_height with
  | Some w, Some h => "!" +:+ pretty w +:+ "," +:+ pretty h
  | Some w, None => pretty w +:+ ","
  | None, Some h => "," +:+ pretty h
  | None, None => "max"
  end.

(** A dimension of a SizeSpec: absent, or a positive integer. *)
Definition valid_dim (v : option Z) : Prop :=
  match v with
  | Some z => (0 < z)%Z
  | None => True
  end.

(** The canvas [canvas] carries, in its first image resource, the service
    identifier [id]. *)
Definition canvas_has_id (canvas id : json) : Prop :=
  ∃ (cm im rm sm : gmap string json) (others : list json),
    canvas = JObj cm
    ∧ cm !! "images" = Some (JArr (JObj im :: others))
    ∧ im !! "resource" = Some (JObj rm)
    ∧ rm !! "service" = Some (JObj sm)
    ∧ sm !! "@id" = Some id.

(** What the loop of [get_image_ids] runs over when the value under
    [canvases] is [cv] and every item is to yield an identifier: the
    elements of a list; an empty dict or an empty string has no item. *)
Definition canvas_items (cv : json) (items : list json) : Prop :=
  cv = JArr items ∨ (items = [] ∧ (cv = JObj ∅ ∨ cv = JStr "")).

(** The manifest has a first sequence, whose canvases are [items]. *)
Definition manifest_items (manifest : json) (items : list json) : Prop :=
  ∃ (mm s0 : gmap string json) (others : list json) (cv : json),
    manifest = JObj mm
    ∧ mm !! "sequences" = Some (JArr (JObj s0 :: others))
    ∧ s0 !! "canvases" = Some cv
    ∧ canvas_items cv items.

(** The exceptions a failed subscript or iteration raises. *)
Definition access_error (e : exn) : Prop :=
  exn_name e ∈ ["KeyError"; "IndexError"; "TypeError"].

(** A minimal canvas and a minimal manifest, as test documents. *)
Definition canvas_of (id : json) : json :=
  JObj {[ "images" :=
    JArr [JObj {[ "resource" := JObj {[ "service" := JObj {[ "@id" := id ]} ]} ]}] ]}.

Definition manifest_of (canvases : json) : json :=
  JObj {[ "sequences" := JArr [JObj {[ "canvases" := canvases ]}] ]}.

Fixpoint digits (s : string) : bool :=
  match s with
  | String c s' => is_digit c && digits s'
  | EmptyString => true
  end.

Definition starts_with_digit (s : string) : bool :=
  match s with
  | String c _ => is_digit c
  | EmptyString => false
  end.

(** The regular expression matches at the start of [s] with group 1 equal
    to [g]: the literal [entity=IE], then the longest run of digits, which
    is not empty. *)
Definition entity_match (s g : string) : Prop :=
  ∃ ds rest,
    s = "entity=IE" +:+ ds +:+ rest
    ∧ ds ≠ "" ∧ digits ds = true ∧ starts_with_digit rest = false
    ∧ g = "IE" +:+ ds.

(** [url] contains no match of the pattern. *)
Definition no_entity (url : string) : Prop :=
  ∀ pre suf g, url = pre +:+ suf → ¬ entity_match suf g.

(** [g] is group 1 of the leftmost match in [url]. *)
Definition first_entity (url g : string) : Prop :=
  ∃ pre suf,
    url = pre +:+ suf ∧ entity_match suf g
    ∧ ∀ pre' suf' g',
        url = pre' +:+ suf' → String.length pre' < String.length pre →
        ¬ entity_match suf' g'.

Fixpoint drop_digits (s : string) : string :=
  match s with
  | String c s' => if is_digit c then drop_digits s' else s
  | EmptyString => ""
  end.

(** A world with no session object, an empty directory [/home/notebooks]
    to work in and no effect yet. *)
Definition empty_world : world :=
  {| w_sessions := []; w_cwd := ["notebooks"; "home"]; w_fs := ∅;
     w_trace := [] |}.

(** A server that answers every request with the same page, whose final
    url carries no [entity] parameter. *)
Definition static_server (url : string) (cookies : gmap string string)
  : option response :=
  Some {| r_url := "https://www.slv.vic.gov.au/"; r_status := 200;
          r_content := "<html></html>"; r_cookies := ∅ |}.

(** The host of a url: what stands between [://] and the next slash. *)
Fixpoint after_scheme (url : string) : string :=
  match strip_prefix "://" url with
  | Some rest => rest
  | None =>
      match url with
      | String _ url' => after_scheme url'
      | EmptyString => ""
      end
  end.

Fixpoint until_slash (s : string) : string :=
  match s with
  | String c s' => if Ascii.eqb c "/" then "" else String c (until_slash s')
  | EmptyString => ""
  end.

Definition host_of (url : string) : string := until_slash (after_scheme url).

(** The rule of an HTTP client for cookies set without a domain and for
    the path [/]: a request carries the cookies that the responses to the
    earlier requests to its host have set, the later ones first. *)
Definition host_scoped (history : list exchange) (url : string)
  : gmap string string :=
  foldl (λ jar ex,
           if String.eqb (host_of ex.1) (host_of url)
           then r_cookies ex.2 ∪ jar else jar)
    ∅ history.

(** A string without a slash: a single path component. *)
Fixpoint no_slash (s : string) : bool :=
  match s with
  | String c s' => negb (Ascii.eqb c "/") && no_slash s'
  | EmptyString => true
  end.

(** *** A library item with one page, as test servers present it *)

Definition demo_handle : string := "http://handle.slv.vic.gov.au/10381/25896".

Definition demo_viewer : response :=
  {| r_url := "https://viewer.slv.vic.gov.au/?entity=IE1164978&mode=browse";
     r_status := 200; r_content := "<html></html>"; r_cookies := ∅ |}.

(** The JSON text of a manifest with the one canvas of the service
    [service]. *)
Definition quoted (s : string) : string := dquote +:+ s +:+ dquote.

Definition manifest_text (service : string) : string :=
  "{" +:+ quoted "sequences" +:+ ":[{" +:+ quoted "canvases" +:+ ":[{"
    +:+ quoted "images" +:+ ":[{" +:+ quoted "resource" +:+ ":{"
    +:+ quoted "service" +:+ ":{" +:+ quoted "@id" +:+ ":"
    +:+ quoted service +:+ "}}}]}]}]}".

Definition demo_manifest_text : string :=
  manifest_text "https://img.example/service1".

Definition demo_manifest : response :=
  {| r_url := manifest_url (Some "IE1164978"); r_status := 200;
     r_content := demo_manifest_text;
     r_cookies := {[ "JSESSIONID" := "1" ]} |}.

Definition demo_image : response :=
  {| r_url := "https://img.example/service1/full/max/0/default.jpg";
     r_status := 200; r_content := "JPEG"; r_cookies := ∅ |}.

Definition demo_forbidden : response :=
  {| r_url := "https://img.example/service1/full/max/0/default.jpg";
     r_status := 403; r_content := "Forbidden"; r_cookies := ∅ |}.

(** The image server answers 403 to a request without the session cookie. *)
Definition demo_server (url : string) (cookies : gmap string string)
  : option response :=
  if String.eqb url demo_handle then Some demo_viewer
  else if String.eqb url (manifest_url (Some "IE1164978")) then
    Some demo_manifest
  else if String.eqb url "https://img.example/service1/full/max/0/default.jpg"
  then
    match cookies !! "JSESSIONID" with
    | Some _ => Some demo_image
    | None => Some demo_forbidden
    end
  else None.


(** The manifest endpoint answers 404, with a JSON body. *)
Definition not_found : response :=
  {| r_url := manifest_url (Some "IE1164978"); r_status := 404;
     r_content := "{}"; r_cookies := ∅ |}.

Definition not_found_server (url : string) (cookies : gmap string string)
  : option response :=
  if String.eqb url (manifest_url (Some "IE1164978")) then Some not_found
  else demo_server url cookies.

(** A decoder that agrees with the JSON decoder on the bodies the test
    servers send: the manifest text, the empty object, a page of HTML. *)
Definition demo_loads (body : string) : option json :=
  if String.eqb body demo_manifest_text then
    Some (manifest_of (JArr [canvas_of (JStr "https://img.example/service1")]))
  else if String.eqb body "{}" then Some (JObj ∅)
  else None.

Definition demo_repr (v : json) : string := "".

(** A world in which one session object exists, without an exchange. *)
Definition one_session_world : world :=
  {| w_sessions := [[]]; w_cwd := ["notebooks"; "home"]; w_fs := ∅;
     w_trace := [] |}.

(** The data the writes [ws] leave at the path [q], if one of them is to
    [q]: that of the last one. *)
Fixpoint written (q : string) (ws : list (string * string)) : option string :=
  match ws with
  | [] => None
  | pd :: ws' =>
      match written q ws' with
      | Some d => Some d
      | None => if decide (pd.1 = q) then Some pd.2 else None
      end
  end.

(** *** Further test documents and worlds *)

(** The JSON text of a manifest whose first sequence has no canvas. *)
Definition empty_manifest_text : string :=
  "{" +:+ quoted "sequences" +:+ ":[{" +:+ quoted "canvases" +:+ ":[]}]}".

Definition empty_manifest : response :=
  {| r_url := manifest_url (Some "IE1164978"); r_status := 200;
     r_content := empty_manifest_text; r_cookies := ∅ |}.

(** The item of [demo_server], its manifest without a canvas. *)
Definition empty_manifest_server (url : string)
    (cookies : gmap string string) : option response :=
  if String.eqb url (manifest_url (Some "IE1164978")) then Some empty_manifest
  else demo_server url cookies.

(** [demo_loads], and the manifest without a canvas. *)
Definition fixture_loads (body : string) : option json :=
  if String.eqb body empty_manifest_text then Some (manifest_of (JArr []))
  else demo_loads body.

(** *** The same item, its images on the host of the manifest *)

Definition rosetta_service : string :=
  "https://rosetta.slv.vic.gov.au/iiif/IE1164978-FL1".

Definition rosetta_manifest : response :=
  {| r_url := manifest_url (Some "IE1164978"); r_status := 200;
     r_content := manifest_text rosetta_service;
     r_cookies := {[ "JSESSIONID" := "1" ]} |}.

Definition rosetta_image : response :=
  {| r_url := rosetta_service +:+ "/full/max/0/default.jpg";
     r_status := 200; r_content := "JPEG"; r_cookies := ∅ |}.

Definition rosetta_forbidden : response :=
  {| r_url := rosetta_service +:+ "/full/max/0/default.jpg";
     r_status := 403; r_content := "Forbidden"; r_cookies := ∅ |}.

(** The image server answers 403 to a request without the session cookie. *)
Definition rosetta_server (url : string) (cookies : gmap string string)
  : option response :=
  if String.eqb url demo_handle then Some demo_viewer
  else if String.eqb url (manifest_url (Some "IE1164978")) then
    Some rosetta_manifest
  else if String.eqb url (rosetta_service +:+ "/full/max/0/default.jpg") then
    match cookies !! "JSESSIONID" with
    | Some _ => Some rosetta_image
    | None => Some rosetta_forbidden
    end
  else None.

Definition rosetta_loads (body : string) : option json :=
  if String.eqb body (manifest_text rosetta_service) then
    Some (manifest_of (JArr [canvas_of (JStr rosetta_service)]))
  else None.

(** [n] copies of a string. *)
Fixpoint copies (n : nat) (s : string) : string :=
  match n with
  | 0 => ""
  | S n' => s +:+ copies n' s
  end.

(** *** A server that has an image at every other url *)

Definition any_image_server (url : string) (cookies : gmap string string)
  : option response :=
  if String.eqb url demo_handle then Some demo_viewer
  else if String.eqb url (manifest_url (Some "IE1164978")) then
    Some demo_manifest
  else Some demo_image.

(** A working directory with notes in it, the directory [images] and in
    it a directory with the name of a page of type [x]. *)
Definition notes_world : world :=
  {| w_sessions := []; w_cwd := ["notebooks"; "home"];
     w_fs := <["notes.txt" := File "kept"]>
             (<["images" := Dir]> {[ "images/slv-IE1164978-0.x" := Dir ]});
     w_trace := [] |}.

(** A canvas without the key [images]. *)
Definition bad_canvas : json := JObj ∅.

(** The world in which the loop of [download_image] is entered: the
    session has had the manifest exchange, with the response [r], and the
    directory [images] exists. *)
Definition loop_entry (handle_url : string) (pid : option string)
    (r : response) (w : world) : world :=
  set_fs (<["images" := Dir]> (w_fs w))
    (emit (EvMkdir "images") (manifest_received handle_url pid r w)).

(** The pages shown in a trace. *)
Definition displays_of (events : list event) : list string :=
  omap (λ e, match e with EvDisplay h => Some h | _ => None end) events.

(** What a run does for its pages, the displays left out. *)
Inductive step :=
| Request (url : string)
| Store (path : string).

Definition steps_of (events : list event) : list step :=
  omap (λ e, match e with
             | EvGet (Some _) url _ => Some (Request url)
             | EvWrite p _ => Some (Store p)
             | _ => None
             end) events.

(** The steps the identifiers call for, from position [index] on: for each
    in turn, the request of its url, then the write of the file of its
    position. *)
Fixpoint planned_steps (url_of : json → string) (file_of : nat → string)
    (index : nat) (image_ids : list json) : list step :=
  match image_ids with
  | [] => []
  | image_id :: rest =>
      Request (url_of image_id) :: Store (file_of index)
      :: planned_steps url_of file_of (S index) rest
  end.

(** A manifest with more than the access path of [get_image_ids]: further
    keys, a second sequence, a second image in the canvas. *)
Definition rich_canvas : json :=
  JObj (<["@id" := JStr "canvas-1"]>
        (<["label" := JStr "page 1"]>
         {[ "images" :=
              JArr [JObj (<["motivation" := JStr "sc:painting"]>
                          {[ "resource" :=
                               JObj (<["format" := JStr "image/jpeg"]>
                                     {[ "service" :=
                                          JObj (<["profile" := JStr "level2"]>
                                                {[ "@id" := JStr "A" ]}) ]}) ]});
                    JObj ∅] ]})).

Definition rich_manifest : json :=
  JObj (<["@type" := JStr "sc:Manifest"]>
        {[ "sequences" :=
             JArr [JObj (<["viewingHint" := JStr "paged"]>
                         {[ "canvases" := JArr [rich_canvas] ]});
                   JNull] ]}).

(** * Properties *)

(** ** Strings *)

Lemma string_app_cons (c : ascii) (s t : string) :
  String c s +:+ t = String c (s +:+ t).
Proof. reflexivity. Qed.

Lemma string_app_nil_l (s : string) : "" +:+ s = s.
Proof. reflexivity. Qed.

Lemma string_length_app (s t : string) :
  String.length (s +:+ t) = String.length s + String.length t.
Proof.
  induction s as [|c s IH]; [done|].
  rewrite string_app_cons. simpl. by rewrite IH.
Qed.

Lemma string_app_assoc (s t u : string) : (s +:+ t) +:+ u = s +:+ (t +:+ u).
Proof.
  induction s as [|c s IH]; [done|].
  by rewrite !string_app_cons, IH.
Qed.

Lemma string_app_nil_r (s : string) : s +:+ "" = s.
Proof.
  induction s as [|c s IH]; [done|].
  by rewrite string_app_cons, IH.
Qed.

(** ** The size token of [construct_image_url] *)

Lemma truthy_Some (z : Z) : truthy (Some z) = negb (z =? 0)%Z.
Proof. done. Qed.

Lemma truthy_valid (v : option Z) :
  valid_dim v → truthy v = match v with Some _ => true | None => false end.
Proof.
  destruct v as [z|]; simpl; [|done].
  intros Hz. destruct (Z.eqb_spec z 0); [lia | done].
Qed.

Lemma size_token_valid (mw mh : option Z) :
  valid_dim mw → valid_dim mh → size_token mw mh = spec_size_token mw mh.
Proof.
  intros Hw Hh. unfold size_token.
  rewrite (truthy_valid mw Hw), (truthy_valid mh Hh).
  by destruct mw, mh.
Qed.

(** C3: over the four shapes of a SizeSpec (each dimension absent or a
    positive integer) the size token of [construct_image_url] is the one the
    specification gives -- [max], [w,], [,h], [!w,h] -- and the url is
    [{image_id}/full/{size}/0/default.{image_type}]; the four examples of
    the specification evaluate as stated. *)
Theorem construct_image_url_four_shapes
    (py_repr : json → string) (image_id image_type : string)
    (max_width max_height : option Z) :
  valid_dim max_width → valid_dim max_height →
  construct_image_url py_repr (JStr image_id) image_type max_width max_height
    = image_id +:+ "/full/" +:+ spec_size_token max_width max_height
        +:+ "/0/default." +:+ image_type
  ∧ size_token None None = "max"
  ∧ size_token (Some 200%Z) None = "200,"
  ∧ size_token None (Some 150%Z) = ",150"
  ∧ size_token (Some 200%Z) (Some 150%Z) = "!200,150".
Proof.
  intros Hw Hh. split; [|by vm_compute].
  unfold construct_image_url; simpl. by rewrite size_token_valid.
Qed.

Lemma construct_image_url_four_shapes_witness :
  construct_image_url (λ _, "") (JStr "https://img.example/service1") "jpg"
      (Some 200%Z) (Some 150%Z)
    = "https://img.example/service1/full/!200,150/0/default.jpg".
Proof.
  pose proof (construct_image_url_four_shapes (λ _, "")
    "https://img.example/service1" "jpg" (Some 200%Z) (Some 150%Z)) as H.
  destruct H as [H _]; [simpl; lia | simpl; lia |].
  rewrite H. reflexivity.
Defined.

(** C10: [construct_image_url] tests its size arguments by truthiness, so
    a dimension [0] is treated as absent: [(0, 150)] gives [,150] and
    [(0, 0)] gives [max]; the code's size token is the four-shape token of
    the specification exactly when neither dimension is [0]. *)
Theorem construct_image_url_zero_is_absent
    (py_repr : json → string) (image_id : json) (image_type : string) :
  construct_image_url py_repr image_id image_type (Some 0%Z) (Some 150%Z)
    = py_str py_repr image_id +:+ "/full/,150/0/default." +:+ image_type
  ∧ construct_image_url py_repr image_id image_type (Some 0%Z) (Some 0%Z)
    = py_str py_repr image_id +:+ "/full/max/0/default." +:+ image_type
  ∧ (∀ mh, size_token (Some 0%Z) mh = size_token None mh)
  ∧ (∀ mw, size_token mw (Some 0%Z) = size_token mw None)
  ∧ (∀ mw mh, size_token mw mh = spec_size_token mw mh
              ↔ mw ≠ Some 0%Z ∧ mh ≠ Some 0%Z).
Proof.
  split; [done|]. split; [done|]. split; [done|].
  split; [by intros [w|]; unfold size_token; simpl; rewrite ?andb_false_r|].
  intros mw mh. split.
  - intros Heq. split; intros ->.
    + destruct mh as [h|]; [|by vm_compute in Heq].
      unfold size_token in Heq; simpl in Heq.
      destruct (negb (h =? 0)%Z); simpl in Heq; discriminate.
    + destruct mw as [w|]; [|by vm_compute in Heq].
      destruct (Z.eqb_spec w 0) as [->|Hw]; [by vm_compute in Heq|].
      unfold size_token in Heq. rewrite andb_false_r, truthy_Some in Heq.
      destruct (Z.eqb_spec w 0); [done|]. simpl in Heq.
      apply (f_equal String.length) in Heq.
      rewrite !string_length_app in Heq. simpl in Heq. lia.
  - intros [Hw Hh]. unfold size_token.
    destruct mw as [w|], mh as [h|]; simpl.
    + destruct (Z.eqb_spec w 0); [congruence|].
      destruct (Z.eqb_spec h 0); [congruence|]. done.
    + destruct (Z.eqb_spec w 0); [congruence|]. done.
    + destruct (Z.eqb_spec h 0); [congruence|]. done.
    + done.
Qed.

(** ** [get_image_ids] *)

Lemma access_error_Key k : access_error (KeyError k).
Proof. unfold access_error; simpl. set_solver. Qed.
Lemma access_error_Index : access_error IndexError.
Proof. unfold access_error; simpl. set_solver. Qed.
Lemma access_error_Type : access_error TypeError.
Proof. unfold access_error; simpl. set_solver. Qed.

Create HintDb access.
#[local] Hint Resolve access_error_Key access_error_Index access_error_Type
  : access.

Lemma getitem_key_cases (v : json) (k : string) :
  match getitem_key v k with
  | Ok x => ∃ m, v = JObj m ∧ m !! k = Some x
  | Raise e => access_error e ∧ ∀ m, v = JObj m → m !! k = None
  end.
Proof.
  destruct v; simpl; try (split; [auto with access | congruence]).
  destruct (m !! k) eqn:E; [eauto|].
  split; [auto with access|]. intros m' [= <-]. done.
Qed.

Lemma getitem_0_cases (v : json) :
  match getitem_0 v with
  | Ok x => (∃ others, v = JArr (x :: others))
            ∨ (∃ c s, v = JStr (String c s) ∧ x = JStr (String c ""))
  | Raise e => access_error e ∧ ∀ x others, v ≠ JArr (x :: others)
  end.
Proof.
  destruct v as [| | | |s|l|m]; simpl; try (split; [auto with access | congruence]).
  - destruct s; [split; [auto with access | congruence]|]. right; eauto.
  - destruct l; [split; [auto with access | congruence]|]. left; eauto.
Qed.

Lemma canvas_has_id_str (s : string) (id : json) : ¬ canvas_has_id (JStr s) id.
Proof. intros (cm & ? & ? & ? & ? & [=] & _). Qed.

Lemma canvas_image_id_cases (canvas : json) :
  match canvas_image_id canvas with
  | Ok id => canvas_has_id canvas id
  | Raise e => access_error e ∧ ∀ id, ¬ canvas_has_id canvas id
  end.
Proof.
  unfold canvas_image_id.
  pose proof (getitem_key_cases canvas "images") as H1.
  destruct (getitem_key canvas "images") as [images|e]; simpl; last first.
  { destruct H1 as [He Hn]. split; [done|].
    intros id (cm & im & rm & sm & others & -> & Hi & _).
    specialize (Hn cm eq_refl). congruence. }
  destruct H1 as (cm & -> & Hcm).
  pose proof (getitem_0_cases images) as H2.
  destruct (getitem_0 images) as [image|e]; simpl; last first.
  { destruct H2 as [He Hn]. split; [done|].
    intros id (cm' & im & rm & sm & others & ? & Hi & _). simplify_eq.
    by eapply Hn. }
  pose proof (getitem_key_cases image "resource") as H3.
  destruct (getitem_key image "resource") as [resource|e]; simpl; last first.
  { destruct H3 as [He Hn]. split; [done|].
    intros id (cm' & im & rm & sm & others & ? & Hi & Hr & _). simplify_eq.
    destruct H2 as [(o & ?)|(c & s & ? & _)]; simplify_eq.
    specialize (Hn im eq_refl). congruence. }
  destruct H3 as (im & -> & Him).
  destruct H2 as [(others & ->)|(c & s & _ & ?)]; [|done].
  pose proof (getitem_key_cases resource "service") as H4.
  destruct (getitem_key resource "service") as [service|e]; simpl; last first.
  { destruct H4 as [He Hn]. split; [done|].
    intros id (cm' & im' & rm & sm & others' & ? & Hi & Hr & Hs & _).
    simplify_eq. specialize (Hn rm eq_refl). congruence. }
  destruct H4 as (rm & -> & Hrm).
  pose proof (getitem_key_cases service "@id") as H5.
  destruct (getitem_key service "@id") as [id|e]; simpl; last first.
  { destruct H5 as [He Hn]. split; [done|].
    intros id (cm' & im' & rm' & sm & others' & ? & Hi & Hr & Hs & Hid).
    simplify_eq. specialize (Hn sm eq_refl). congruence. }
  destruct H5 as (sm & -> & Hsm).
  exists cm, im, rm, sm, others. done.
Qed.

Lemma canvas_has_id_fun (canvas id id' : json) :
  canvas_has_id canvas id → canvas_has_id canvas id' → id = id'.
Proof.
  intros (cm & im & rm & sm & o & -> & H1 & H2 & H3 & H4)
         (cm' & im' & rm' & sm' & o' & ? & H1' & H2' & H3' & H4').
  by simplify_eq.
Qed.

Lemma for_canvases_cases (canvases acc : list json) :
  match for_canvases canvases acc with
  | Ok ids => ∃ new, ids = acc ++ new ∧ Forall2 canvas_has_id canvases new
  | Raise e => access_error e ∧ ∀ new, ¬ Forall2 canvas_has_id canvases new
  end.
Proof.
  revert acc. induction canvases as [|c cs IH]; intros acc; simpl.
  - exists []. by rewrite app_nil_r.
  - pose proof (canvas_image_id_cases c) as Hc.
    destruct (canvas_image_id c) as [id|e]; simpl.
    + specialize (IH (acc ++ [id])).
      destruct (for_canvases cs (acc ++ [id])) as [ids|e].
      * destruct IH as (new & -> & Hnew). exists (id :: new).
        split; [by rewrite <-app_assoc | by constructor].
      * destruct IH as [He Hn]. split; [done|].
        intros new Hall. inversion Hall; subst. by eapply Hn.
    + destruct Hc as [He Hn]. split; [done|].
      intros new Hall. inversion Hall; subst. by eapply Hn.
Qed.

Lemma canvas_image_id_Ok (canvas id : json) :
  canvas_has_id canvas id → canvas_image_id canvas = Ok id.
Proof.
  intros (cm & im & rm & sm & others & -> & H1 & H2 & H3 & H4).
  unfold canvas_image_id; simpl. rewrite H1; simpl.
  rewrite H2; simpl. rewrite H3; simpl. by rewrite H4.
Qed.

Lemma for_canvases_Forall2 (canvases ids acc : list json) :
  Forall2 canvas_has_id canvases ids →
  for_canvases canvases acc = Ok (acc ++ ids).
Proof.
  intros Hall. revert acc.
  induction Hall as [|c id cs ids Hc _ IH]; intros acc; simpl.
  - by rewrite app_nil_r.
  - rewrite (canvas_image_id_Ok c id Hc); simpl.
    by rewrite IH, <-app_assoc.
Qed.

Lemma Forall2_canvas_keys (ks : list string) (ids : list json) :
  Forall2 canvas_has_id (JStr <$> ks) ids → ks = [].
Proof.
  destruct ks as [|k ks]; [done|]. simpl.
  intros Hall. inversion Hall; subst. by destruct (canvas_has_id_str k y).
Qed.

Lemma Forall2_canvas_chars (s : string) (ids : list json) :
  Forall2 canvas_has_id (chars s) ids → s = "".
Proof.
  destruct s as [|c s]; [done|]. simpl.
  intros Hall. inversion Hall; subst.
  by destruct (canvas_has_id_str (String c "") y).
Qed.

Lemma canvas_items_iterate (cv : json) (items : list json) :
  canvas_items cv items → iterate cv = Ok items.
Proof.
  intros [->|[-> [->| ->]]]; simpl; [done| |done].
  by rewrite map_to_list_empty.
Qed.

Lemma iterate_canvas_items (cv : json) (items ids : list json) :
  iterate cv = Ok items → Forall2 canvas_has_id items ids →
  canvas_items cv items.
Proof.
  destruct cv as [| | | |s|l|m]; simpl; try done; intros [= <-] Hall.
  - apply Forall2_canvas_chars in Hall as ->. right; auto.
  - by left.
  - apply Forall2_canvas_keys in Hall.
    apply fmap_nil_inv in Hall. apply map_to_list_empty_iff in Hall as ->.
    rewrite map_to_list_empty. right; auto.
Qed.

Lemma iterate_cases (cv : json) :
  match iterate cv with
  | Ok _ => True
  | Raise e => access_error e ∧ ∀ items, ¬ canvas_items cv items
  end.
Proof.
  destruct cv; simpl; try done;
    (split; [auto with access|]);
    intros items [?|[_ [?|?]]]; done.
Qed.

(** [get_image_ids] returns a list exactly when the access path exists in
    full, and then one identifier per canvas, in order; otherwise it
    raises the exception of the failed subscript or iteration. *)
Lemma get_image_ids_cases (manifest : json) :
  match get_image_ids manifest with
  | Ok ids =>
      ∃ items, manifest_items manifest items ∧ Forall2 canvas_has_id items ids
  | Raise e =>
      access_error e
      ∧ ∀ items ids, manifest_items manifest items →
                     ¬ Forall2 canvas_has_id items ids
  end.
Proof.
  unfold get_image_ids.
  pose proof (getitem_key_cases manifest "sequences") as H1.
  destruct (getitem_key manifest "sequences") as [sequences|e]; simpl; last first.
  { destruct H1 as [He Hn]. split; [done|].
    intros items ids (mm & s0 & others & cv & -> & Hs & _) _.
    specialize (Hn mm eq_refl). congruence. }
  destruct H1 as (mm & -> & Hmm).
  pose proof (getitem_0_cases sequences) as H2.
  destruct (getitem_0 sequences) as [sequence|e]; simpl; last first.
  { destruct H2 as [He Hn]. split; [done|].
    intros items ids (mm' & s0 & others & cv & ? & Hs & _) _. simplify_eq.
    by eapply Hn. }
  pose proof (getitem_key_cases sequence "canvases") as H3.
  destruct (getitem_key sequence "canvases") as [cv|e]; simpl; last first.
  { destruct H3 as [He Hn]. split; [done|].
    intros items ids (mm' & s0 & others & cv & ? & Hs & Hc & _) _.
    simplify_eq. destruct H2 as [(o & ?)|(c & s & ? & _)]; simplify_eq.
    specialize (Hn s0 eq_refl). congruence. }
  destruct H3 as (s0 & -> & Hs0).
  destruct H2 as [(others & ->)|(c & s & _ & ?)]; [|done].
  pose proof (iterate_cases cv) as H4.
  destruct (iterate cv) as [items|e] eqn:Hit; simpl; last first.
  { destruct H4 as [He Hn]. split; [done|].
    intros items ids (mm' & s0' & others' & cv' & ? & Hs & Hc & Hci) _.
    simplify_eq. by eapply Hn. }
  pose proof (for_canvases_cases items []) as H5.
  destruct (for_canvases items []) as [ids|e].
  - destruct H5 as (new & -> & Hall). simpl. exists items. split; [|done].
    exists mm, s0, others, cv. repeat split; try done.
    by eapply iterate_canvas_items.
  - destruct H5 as [He Hn]. split; [done|].
    intros items' ids (mm' & s0' & others' & cv' & ? & Hs & Hc & Hci) Hall.
    simplify_eq. apply canvas_items_iterate in Hci.
    rewrite Hit in Hci. injection Hci as <-. by eapply Hn.
Qed.

(** C4: when the first sequence of the manifest holds the canvases [cs]
    and each has a first image resource with a service identifier,
    [get_image_ids] returns those identifiers, one per canvas, in the order
    of the canvases; the canvases with services A and B give [A, B]. *)
Theorem get_image_ids_in_canvas_order
    (mm s0 : gmap string json) (others cs ids : list json) :
  mm !! "sequences" = Some (JArr (JObj s0 :: others)) →
  s0 !! "canvases" = Some (JArr cs) →
  Forall2 canvas_has_id cs ids →
  get_image_ids (JObj mm) = Ok ids
  ∧ length ids = length cs
  ∧ (∀ i id, ids !! i = Some id →
       ∃ canvas, cs !! i = Some canvas ∧ canvas_image_id canvas = Ok id)
  ∧ get_image_ids
      (manifest_of (JArr [canvas_of (JStr "A"); canvas_of (JStr "B")]))
    = Ok [JStr "A"; JStr "B"].
Proof.
  intros Hseq Hcv Hall. split; [|split; [|split]].
  - unfold get_image_ids; simpl. rewrite Hseq; simpl. rewrite Hcv; simpl.
    by rewrite (for_canvases_Forall2 cs ids []).
  - symmetry. by eapply Forall2_length.
  - intros i id Hi.
    destruct (Forall2_lookup_r _ _ _ _ _ Hall Hi) as (c & Hc & Hcid).
    exists c. split; [done|]. by apply canvas_image_id_Ok.
  - by vm_compute.
Qed.

Lemma canvas_of_has_id (id : json) : canvas_has_id (canvas_of id) id.
Proof.
  unfold canvas_of. eexists _, _, _, _, []. split; [done|].
  by rewrite !lookup_singleton_eq.
Qed.

Lemma get_image_ids_in_canvas_order_witness :
  get_image_ids
    (manifest_of (JArr [canvas_of (JStr "A"); canvas_of (JStr "B")]))
  = Ok [JStr "A"; JStr "B"].
Proof.
  refine (proj1 (get_image_ids_in_canvas_order
    {[ "sequences" :=
         JArr [JObj {[ "canvases" :=
                 JArr [canvas_of (JStr "A"); canvas_of (JStr "B")] ]}] ]}
    {[ "canvases" := JArr [canvas_of (JStr "A"); canvas_of (JStr "B")] ]}
    [] [canvas_of (JStr "A"); canvas_of (JStr "B")] [JStr "A"; JStr "B"]
    _ _ _)).
  - apply lookup_singleton_eq.
  - apply lookup_singleton_eq.
  - repeat constructor; apply canvas_of_has_id.
Defined.

(** C7, as stated, fails: on a manifest without the key [sequences]
    [get_image_ids] raises [KeyError], and no exception of the class
    [MalformedManifestError]. *)
Lemma get_image_ids_raises_KeyError :
  get_image_ids (JObj ∅) = Raise (KeyError (JStr "sequences"))
  ∧ ¬ ∃ e, get_image_ids (JObj ∅) = Raise e
           ∧ exn_name e = "MalformedManifestError".
Proof.
  split; [done|]. intros (e & He & Hname).
  vm_compute in He. injection He as <-. discriminate Hname.
Qed.

(** C7, amended: a manifest in which the access path
    sequences, first sequence, canvases, each canvas's first image,
    resource, service, identifier is broken at any level or in any canvas
    makes [get_image_ids] raise the [KeyError], [IndexError] or [TypeError]
    of the failed access, and conversely; a list is returned only
    together with the whole structure, one identifier per canvas, never a
    partial one. *)
Theorem get_image_ids_raises_or_complete (manifest : json) :
  ((∃ e, get_image_ids manifest = Raise e ∧ access_error e)
   ↔ ¬ ∃ items ids,
         manifest_items manifest items ∧ Forall2 canvas_has_id items ids)
  ∧ (∀ e, get_image_ids manifest = Raise e → access_error e)
  ∧ (∀ ids, get_image_ids manifest = Ok ids →
       ∃ items, manifest_items manifest items
                ∧ Forall2 canvas_has_id items ids
                ∧ length ids = length items).
Proof.
  pose proof (get_image_ids_cases manifest) as H.
  destruct (get_image_ids manifest) as [ids|e].
  - destruct H as (items & Hm & Hall). split; [|split].
    + split; [by intros (e & [=] & _)|]. intros Hn. destruct Hn; eauto.
    + by intros e [=].
    + intros ids' [= <-]. exists items. split_and!; try done.
      symmetry. by eapply Forall2_length.
  - destruct H as [He Hn]. split; [|split].
    + split; [|by eauto]. intros _ (items & ids & Hm & Hall).
      by eapply Hn.
    + by intros e' [= <-].
    + by intros ids [=].
Qed.

(** ** The pattern [entity=(IE\d+)] *)

Lemma strip_prefix_spec (p s rest : string) :
  strip_prefix p s = Some rest ↔ s = p +:+ rest.
Proof.
  revert s. induction p as [|a p IH]; intros s; simpl.
  - rewrite string_app_nil_l. split; congruence.
  - rewrite string_app_cons. destruct s as [|b s]; [done|].
    destruct (Ascii.eqb_spec a b) as [->|Hne].
    + rewrite IH. split; congruence.
    + split; [done | congruence].
Qed.

Lemma take_drop_digits (s : string) :
  s = take_digits s +:+ drop_digits s
  ∧ digits (take_digits s) = true
  ∧ starts_with_digit (drop_digits s) = false.
Proof.
  induction s as [|c s (IH1 & IH2 & IH3)]; simpl; [done|].
  destruct (is_digit c) eqn:Hc; simpl.
  - rewrite Hc, string_app_cons, <-IH1. done.
  - by rewrite Hc.
Qed.

Lemma take_digits_app (ds rest : string) :
  digits ds = true → starts_with_digit rest = false →
  take_digits (ds +:+ rest) = ds.
Proof.
  intros Hds Hrest. induction ds as [|c ds IH]; simpl in *.
  - rewrite string_app_nil_l. destruct rest as [|c rest]; simpl in *; [done|].
    by rewrite Hrest.
  - apply andb_true_iff in Hds as [Hc Hds].
    rewrite ?string_app_cons. simpl. by rewrite Hc, IH.
Qed.

Lemma match_entity_here_spec (s g : string) :
  match_entity_here s = Some g ↔ entity_match s g.
Proof.
  unfold match_entity_here, entity_match. split.
  - destruct (strip_prefix "entity=IE" s) as [rest|] eqn:Hp; [|done].
    apply strip_prefix_spec in Hp as ->.
    destruct (take_drop_digits rest) as (Hsplit & Hd & Hr).
    destruct (take_digits rest) as [|c ds] eqn:Ht; [done|].
    intros [= <-]. exists (String c ds), (drop_digits rest).
    by rewrite <-Hsplit.
  - intros (ds & rest & -> & Hne & Hd & Hr & ->).
    assert (strip_prefix "entity=IE" ("entity=IE" +:+ ds +:+ rest)
            = Some (ds +:+ rest)) as -> by by apply strip_prefix_spec.
    rewrite take_digits_app by done. by destruct ds.
Qed.

Lemma search_entity_None (url : string) :
  search_entity url = None ↔ no_entity url.
Proof.
  unfold no_entity. induction url as [|c url IH]; simpl.
  - split; [|done]. intros _ pre suf g Heq Hm.
    destruct pre; [|done]. rewrite string_app_nil_l in Heq. subst suf.
    apply match_entity_here_spec in Hm. done.
  - destruct (match_entity_here (String c url)) as [g|] eqn:Hm.
    + split; [done|]. intros Hno. apply match_entity_here_spec in Hm.
      by destruct (Hno "" (String c url) g).
    + rewrite IH. split.
      * intros Hno pre suf g Heq Hmatch. destruct pre as [|c' pre].
        -- rewrite string_app_nil_l in Heq. subst suf.
           apply match_entity_here_spec in Hmatch. congruence.
        -- rewrite string_app_cons in Heq. injection Heq as -> ->.
           by eapply Hno.
      * intros Hno pre suf g -> Hmatch.
        by eapply (Hno (String c pre) suf g).
Qed.

Lemma search_entity_Some (url g : string) :
  search_entity url = Some g ↔ first_entity url g.
Proof.
  unfold first_entity. revert g. induction url as [|c url IH]; intros g; simpl.
  - split; [done|]. intros (pre & suf & Heq & Hm & _).
    destruct pre; [|done]. rewrite string_app_nil_l in Heq. subst suf.
    apply match_entity_here_spec in Hm. done.
  - destruct (match_entity_here (String c url)) as [g0|] eqn:Hm.
    + split.
      * intros [= <-]. exists "", (String c url).
        split; [done|]. split; [by apply match_entity_here_spec|].
        intros pre' suf' g' _ Hlt. simpl in Hlt. lia.
      * intros (pre & suf & Heq & Hmatch & Hleft).
        destruct pre as [|c' pre].
        -- rewrite string_app_nil_l in Heq. subst suf.
           apply match_entity_here_spec in Hmatch. congruence.
        -- apply match_entity_here_spec in Hm.
           destruct (Hleft "" (String c url) g0); [done|simpl; lia|done].
    + rewrite IH. split.
      * intros (pre & suf & -> & Hmatch & Hleft).
        exists (String c pre), suf. split; [done|]. split; [done|].
        intros pre' suf' g' Heq Hlt Hm'. destruct pre' as [|c' pre'].
        -- rewrite string_app_nil_l in Heq. subst suf'.
           apply match_entity_here_spec in Hm'.
           rewrite ?string_app_cons in Hm'. congruence.
        -- rewrite !string_app_cons in Heq. injection Heq as -> Heq.
           simpl in Hlt. eapply (Hleft pre' suf' g'); [done|lia|done].
      * intros (pre & suf & Heq & Hmatch & Hleft).
        destruct pre as [|c' pre].
        -- rewrite string_app_nil_l in Heq. subst suf.
           apply match_entity_here_spec in Hmatch. congruence.
        -- rewrite string_app_cons in Heq. injection Heq as Hc Hu.
           exists pre, suf. split; [done|]. split; [done|].
           intros pre' suf' g' Hu' Hlt.
           apply (Hleft (String c pre') suf' g');
             [by rewrite string_app_cons, Hu' | simpl; lia].
Qed.

(** ** [get_pid] *)

Lemma get_pid_run (serve : string → gmap string string → option response)
    (handle_url : string) (w : world) :
  get_pid serve handle_url w =
    (match serve handle_url ∅ with
     | Some r => Ok (search_entity (r_url r))
     | None => Raise RequestException
     end, emit (EvGet None handle_url ∅) w).
Proof.
  unfold get_pid, mbind, M_bind, requests_get.
  by destruct (serve handle_url ∅).
Qed.

(** C6, as stated, fails: when the final url has no match of the pattern,
    [get_pid] returns [None]; it raises nothing. *)
Lemma get_pid_returns_None :
  no_entity "https://www.slv.vic.gov.au/"
  ∧ fst (get_pid static_server "http://handle.slv.vic.gov.au/10381/25896"
           empty_world) = Ok None
  ∧ ¬ ∃ e, fst (get_pid static_server
                  "http://handle.slv.vic.gov.au/10381/25896" empty_world)
           = Raise e.
Proof.
  split; [by apply search_entity_None|].
  split; [done|]. by intros (e & [=]).
Qed.

(** C6, amended: [get_pid] raises only when the request itself does (the
    HTTP client's exception). Otherwise it returns: [None] when the final
    url has no match of [entity=(IE\d+)], and group 1 of the leftmost
    match when it has one, as [IE12345] for a url with [entity=IE12345]. *)
Theorem get_pid_first_group_or_None
    (serve : string → gmap string string → option response)
    (handle_url : string) (w : world) :
  match serve handle_url ∅ with
  | None => fst (get_pid serve handle_url w) = Raise RequestException
  | Some r =>
      (no_entity (r_url r) ∧ fst (get_pid serve handle_url w) = Ok None)
      ∨ (∃ g, first_entity (r_url r) g
              ∧ fst (get_pid serve handle_url w) = Ok (Some g))
  end
  ∧ search_entity
      "https://viewer.slv.vic.gov.au/?entity=IE12345&mode=browse"
    = Some "IE12345".
Proof.
  split; [|done]. rewrite get_pid_run. simpl.
  destruct (serve handle_url ∅) as [r|]; [|done].
  destruct (search_entity (r_url r)) as [g|] eqn:Hs.
  - right. exists g. split; [by apply search_entity_Some | done].
  - left. split; [by apply search_entity_None | done].
Qed.


(** ** Runs of the effectful operations *)

Lemma write_error_IsADirectory : write_error IsADirectoryError.
Proof. unfold write_error; simpl. set_solver. Qed.
Lemma write_error_NotADirectory : write_error NotADirectoryError.
Proof. unfold write_error; simpl. set_solver. Qed.
Lemma write_error_FileNotFound : write_error FileNotFoundError.
Proof. unfold write_error; simpl. set_solver. Qed.
Lemma write_error_OSError (errno : string) : write_error (OSError errno).
Proof. unfold write_error; simpl. set_solver. Qed.
Lemma write_error_ValueError : write_error ValueError.
Proof. unfold write_error; simpl. set_solver. Qed.

#[local] Hint Resolve write_error_IsADirectory write_error_NotADirectory
  write_error_FileNotFound write_error_OSError write_error_ValueError : access.

Lemma write_error_not_request (e : exn) :
  write_error e → e ≠ RequestException.
Proof.
  intros He ->. unfold write_error in He. simpl in He.
  repeat (apply elem_of_cons in He as [He|He]; [done|]).
  by apply elem_of_nil in He.
Qed.

(** ** Paths on the file system *)

(** The walk of the kernel ends where the components lead, or raises. *)
Lemma walk_cases (fs : gmap string node) (cwd parts : list string) :
  ∀ loc,
    walk fs cwd loc parts = Ok (climb cwd loc parts)
    ∨ ∃ e, walk fs cwd loc parts = Raise e ∧ write_error e.
Proof.
  induction parts as [|c rest IH]; intros loc; simpl; [by left|].
  destruct (NAME_MAX <? String.length c)%nat; [right; eauto with access|].
  destruct (String.eqb c ".."); [apply IH|].
  destruct (node_at fs (down cwd loc c)) as [[|d]|];
    [apply IH|right; eauto with access..].
Qed.

Lemma node_at_not_dir (fs : gmap string node) (loc : location) :
  node_at fs loc ≠ Some Dir → fs !! key_of loc ≠ Some Dir.
Proof. unfold node_at. by destruct (loc.2). Qed.

(** [open(p, 'wb')] gives the file the path leads to, which is no
    directory, or raises. *)
Lemma resolve_cases (fs : gmap string node) (cwd : list string) (p : string) :
  (resolve fs cwd p = Ok (target_key cwd p)
   ∧ fs !! target_key cwd p ≠ Some Dir)
  ∨ ∃ e, resolve fs cwd p = Raise e ∧ write_error e.
Proof.
  unfold resolve, target_key.
  destruct (has_nul p); [right; eauto with access|].
  destruct (PATH_MAX <=? String.length p)%nat; [right; eauto with access|].
  destruct (split_last (path_components p)) as [[dirs name]|];
    [|right; eauto with access].
  destruct (walk_cases fs cwd dirs here) as [->|(e & -> & He)];
    [|right; eauto]. simpl.
  destruct (NAME_MAX <? String.length name)%nat; [right; eauto with access|].
  destruct (String.eqb name ".."); [right; eauto with access|].
  destruct (node_at fs (down cwd (climb cwd here dirs) name))
    as [[|d]|] eqn:Hnode; [right; eauto with access|left..];
    (split; [done|]); apply node_at_not_dir; by rewrite Hnode.
Qed.

Lemma write_bytes_cases (p d : string) (w : world) :
  (write_bytes p d w
     = (Ok (), set_fs (<[target_key (w_cwd w) p := File d]> (w_fs w))
                 (emit (EvWrite p d) w))
   ∧ resolve (w_fs w) (w_cwd w) p = Ok (target_key (w_cwd w) p)
   ∧ w_fs w !! target_key (w_cwd w) p ≠ Some Dir)
  ∨ (∃ e, write_bytes p d w = (Raise e, emit (EvWrite p d) w)
          ∧ write_error e
          ∧ resolve (w_fs w) (w_cwd w) p = Raise e).
Proof.
  unfold write_bytes.
  destruct (resolve_cases (w_fs w) (w_cwd w) p) as [[-> Hnd]|(e & -> & He)].
  - by left.
  - right. by exists e.
Qed.

(** What [write_bytes] does with some paths, in the directory
    [/home/notebooks] with the directory [images] and the notes: a path
    that leaves the working directory and comes back leads to the same
    file as the direct one; a NUL character, a name of more than 255
    bytes, a missing directory and a directory in the place of the file
    are refused. *)
Lemma write_bytes_examples :
  target_key ["notebooks"; "home"] "../notebooks/notes.txt" = "notes.txt"
  ∧ target_key ["notebooks"; "home"] "images/../../../../x" = "../../x"
  ∧ w_fs (write_bytes "images/../../notebooks/./notes.txt" "new"
            notes_world).2 !! "notes.txt" = Some (File "new")
  ∧ (write_bytes (String Ascii.zero "x") "data" notes_world).1
    = Raise ValueError
  ∧ (write_bytes ("images/" +:+ copies 256 "a") "data" notes_world).1
    = Raise (OSError "ENAMETOOLONG")
  ∧ (write_bytes ("images/" +:+ copies 255 "a") "data" notes_world).1 = Ok ()
  ∧ (write_bytes "pictures/x" "data" notes_world).1 = Raise FileNotFoundError
  ∧ (write_bytes "notes.txt/x" "data" notes_world).1
    = Raise NotADirectoryError
  ∧ (write_bytes "images" "data" notes_world).1 = Raise IsADirectoryError
  ∧ (write_bytes "images/.." "data" notes_world).1 = Raise IsADirectoryError.
Proof. split_and!; by vm_compute. Qed.

(** Whether a path can be opened depends on the directories only, not on
    the files. *)
Lemma same_dirs_refl (fs : gmap string node) : same_dirs fs fs.
Proof. by intros p. Qed.

Lemma same_dirs_sym (fs fs' : gmap string node) :
  same_dirs fs fs' → same_dirs fs' fs.
Proof. intros H p. by rewrite (H p). Qed.

Lemma same_dirs_trans (fs1 fs2 fs3 : gmap string node) :
  same_dirs fs1 fs2 → same_dirs fs2 fs3 → same_dirs fs1 fs3.
Proof. intros H12 H23 p. by rewrite (H12 p). Qed.

Lemma same_dirs_write (fs fs' : gmap string node) (p d d' : string) :
  same_dirs fs fs' → fs !! p ≠ Some Dir →
  same_dirs (<[p := File d]> fs) (<[p := File d']> fs').
Proof.
  intros Hsame Hp q. destruct (decide (p = q)) as [->|Hne].
  - by rewrite !lookup_insert_eq.
  - rewrite !lookup_insert_ne by done. apply Hsame.
Qed.

Lemma same_dirs_write_l (fs : gmap string node) (p d : string) :
  fs !! p ≠ Some Dir → same_dirs fs (<[p := File d]> fs).
Proof.
  intros Hp q. destruct (decide (p = q)) as [->|Hne].
  - rewrite lookup_insert_eq. split; [done|by intros [=]].
  - by rewrite lookup_insert_ne.
Qed.

Lemma node_at_same_dirs (fs fs' : gmap string node) (loc : location) :
  same_dirs fs fs' → node_at fs loc = Some Dir → node_at fs' loc = Some Dir.
Proof.
  intros Hsame. unfold node_at. destruct (loc.2); [done|]. apply Hsame.
Qed.

Lemma walk_same_dirs (fs fs' : gmap string node) (cwd parts : list string) :
  same_dirs fs fs' →
  ∀ loc loc', walk fs cwd loc parts = Ok loc' →
              walk fs' cwd loc parts = Ok loc'.
Proof.
  intros Hsame. induction parts as [|c rest IH]; intros loc loc'; simpl;
    [done|].
  destruct (NAME_MAX <? String.length c)%nat; [done|].
  destruct (String.eqb c ".."); [apply IH|].
  destruct (node_at fs (down cwd loc c)) as [[|d]|] eqn:Hnode; [|done..].
  rewrite (node_at_same_dirs fs fs' _ Hsame Hnode). apply IH.
Qed.

Lemma resolve_same_dirs (fs fs' : gmap string node) (cwd : list string)
    (p key : string) :
  same_dirs fs fs' →
  resolve fs cwd p = Ok key → resolve fs' cwd p = Ok key.
Proof.
  intros Hsame. unfold resolve.
  destruct (has_nul p); [done|].
  destruct (PATH_MAX <=? String.length p)%nat; [done|].
  destruct (split_last (path_components p)) as [[dirs name]|]; [|done].
  destruct (walk fs cwd here dirs) as [loc|e] eqn:Hwalk; [|done].
  rewrite (walk_same_dirs fs fs' cwd dirs Hsame _ _ Hwalk). simpl.
  destruct (NAME_MAX <? String.length name)%nat; [done|].
  destruct (String.eqb name ".."); [done|].
  destruct (node_at fs' (down cwd loc name)) as [[|d']|] eqn:Hnode'.
  - apply (node_at_same_dirs fs' fs _ (same_dirs_sym _ _ Hsame)) in Hnode'.
    by rewrite Hnode'.
  - by destruct (node_at fs (down cwd loc name)) as [[|d]|].
  - by destruct (node_at fs (down cwd loc name)) as [[|d]|].
Qed.

(** ** File names *)

Lemma no_slash_app (a b : string) :
  no_slash (a +:+ b) = no_slash a && no_slash b.
Proof.
  induction a as [|c a IH]; [done|].
  rewrite string_app_cons. simpl. by rewrite IH, andb_assoc.
Qed.

Lemma path_parts_no_slash (s cur : string) :
  no_slash s = true → path_parts s cur = [cur +:+ s].
Proof.
  revert cur. induction s as [|c s IH]; intros cur Hs; simpl in *.
  - by rewrite string_app_nil_r.
  - apply andb_true_iff in Hs as [Hc Hs].
    destruct (Ascii.eqb c "/"); [done|].
    rewrite IH by done. by rewrite string_app_assoc.
Qed.

Lemma path_parts_slash (a b cur : string) :
  no_slash a = true →
  path_parts (a +:+ "/" +:+ b) cur = (cur +:+ a) :: path_parts b "".
Proof.
  revert cur. induction a as [|c a IH]; intros cur Ha.
  - simpl. by rewrite string_app_nil_r.
  - simpl in Ha. apply andb_true_iff in Ha as [Hc Ha].
    rewrite string_app_cons. cbn [path_parts].
    destruct (Ascii.eqb c "/"); [done|].
    rewrite IH by done. by rewrite string_app_assoc.
Qed.

Lemma digits_no_slash (s : string) : digits s = true → no_slash s = true.
Proof.
  induction s as [|c s IH]; [done|]. simpl.
  intros [Hc Hs]%andb_true_iff. rewrite IH by done.
  destruct (Ascii.eqb_spec c "/") as [->|]; [done|done].
Qed.

Lemma pretty_N_char_no_slash (x : N) (s : string) :
  no_slash (String (pretty_N_char x) s) = no_slash s.
Proof. unfold pretty_N_char. by repeat case_match. Qed.

Lemma pretty_N_go_no_slash (x : N) (s : string) :
  no_slash s = true → no_slash (pretty_N_go x s) = true.
Proof.
  revert s. induction (N.lt_wf_0 x) as [x _ IH]; intros s Hs.
  destruct (decide (0 < x)%N) as [Hx|Hx].
  - rewrite pretty_N_go_step by done. apply IH.
    + by apply N.div_lt.
    + by rewrite pretty_N_char_no_slash.
  - assert (x = 0%N) as -> by lia. by rewrite pretty_N_go_0.
Qed.

Lemma pretty_nat_no_slash (n : nat) : no_slash (pretty n) = true.
Proof.
  unfold pretty, pretty_nat, pretty, pretty_N.
  case_decide; [done|]. by apply pretty_N_go_no_slash.
Qed.

Lemma search_entity_no_slash (url : string) :
  no_slash (str_pid (search_entity url)) = true.
Proof.
  destruct (search_entity url) as [g|] eqn:Hs; [|done].
  apply search_entity_Some in Hs as (pre & suf & _ & Hm & _).
  destruct Hm as (ds & rest & _ & _ & Hds & _ & ->).
  simpl. by apply digits_no_slash.
Qed.

(** With a single-component [image_type], [Path] leaves the name as the
    f-string wrote it. *)
Lemma filename_literal (pid : option string) (index : nat)
    (image_type : string) :
  no_slash (str_pid pid) = true → no_slash image_type = true →
  filename pid index image_type
    = "images/slv-" +:+ str_pid pid +:+ "-" +:+ pretty index +:+ "."
        +:+ image_type.
Proof.
  intros Hpid Htype. unfold filename, Path.
  set (name := "slv-" +:+ str_pid pid +:+ "-" +:+ pretty index +:+ "."
                 +:+ image_type).
  change ("images/slv-" +:+ str_pid pid +:+ "-" +:+ pretty index +:+ "."
            +:+ image_type) with ("images" +:+ "/" +:+ name).
  assert (no_slash name = true) as Hname.
  { unfold name. rewrite !no_slash_app, Hpid, Htype, pretty_nat_no_slash.
    done. }
  rewrite path_parts_slash by done.
  rewrite path_parts_no_slash by done.
  rewrite !string_app_nil_l. done.
Qed.


(** The name of a page is a file name: neither empty, nor [.], nor [..]. *)
Lemma page_name_facts (rest : string) :
  keep_part ("slv-" +:+ rest) = true
  ∧ String.eqb ("slv-" +:+ rest) ".." = false.
Proof. done. Qed.

Lemma components_in_images (name : string) :
  no_slash name = true → keep_part name = true →
  path_components ("images" +:+ "/" +:+ name) = ["images"; name].
Proof.
  intros Hname Hkeep. unfold path_components.
  rewrite path_parts_slash by done.
  rewrite path_parts_no_slash by done.
  rewrite !string_app_nil_l. simpl. by rewrite Hkeep.
Qed.

(** A file of the directory [images] has the path as its key. *)
Lemma target_key_in_images (cwd : list string) (name : string) :
  no_slash name = true → keep_part name = true →
  String.eqb name ".." = false →
  target_key cwd ("images" +:+ "/" +:+ name) = "images" +:+ "/" +:+ name.
Proof.
  intros Hname Hkeep Hup. unfold target_key.
  rewrite components_in_images by done. done.
Qed.



(** With a single-component [image_type], the file of a page is a file of
    the directory [images], under the name the f-string wrote. *)
Lemma target_key_filename (cwd : list string) (pid : option string)
    (index : nat) (image_type : string) :
  no_slash (str_pid pid) = true → no_slash image_type = true →
  target_key cwd (filename pid index image_type)
    = filename pid index image_type.
Proof.
  intros Hpid Htype. rewrite filename_literal by done.
  set (name := "slv-" +:+ str_pid pid +:+ "-" +:+ pretty index +:+ "."
                 +:+ image_type).
  change ("images/slv-" +:+ str_pid pid +:+ "-" +:+ pretty index +:+ "."
            +:+ image_type) with ("images" +:+ "/" +:+ name).
  assert (no_slash name = true) as Hname.
  { unfold name. rewrite !no_slash_app, Hpid, Htype, pretty_nat_no_slash.
    done. }
  destruct (page_name_facts (str_pid pid +:+ "-" +:+ pretty index +:+ "."
                               +:+ image_type)) as [Hkeep Hup].
  by apply target_key_in_images.
Qed.

Lemma mkdir_images_cases (w : world) :
  (∃ d, w_fs w !! "images" = Some (File d)
        ∧ mkdir "images" w
          = (Raise FileExistsError, emit (EvMkdir "images") w))
  ∨ ((∀ d, w_fs w !! "images" ≠ Some (File d))
     ∧ mkdir "images" w
       = (Ok (), set_fs (<["images" := Dir]> (w_fs w))
                   (emit (EvMkdir "images") w))).
Proof.
  unfold mkdir. destruct (w_fs w !! "images") as [[|d]|] eqn:Hfs.
  - right. split; [done|]. rewrite insert_id by done. by destruct w.
  - left. eauto.
  - right. done.
Qed.

(** ** Writes on the directory *)

Lemma lookup_apply_writes (ws : list (string * string)) :
  ∀ (fs : gmap string node) (q : string),
    apply_writes ws fs !! q
    = match written q ws with
      | Some d => Some (File d)
      | None => fs !! q
      end.
Proof.
  induction ws as [|[p d] ws IH]; intros fs q; [done|].
  unfold apply_writes in *. simpl. rewrite IH.
  destruct (written q ws); [done|].
  case_decide as Hpq; simpl in Hpq.
  - subst. by rewrite lookup_insert_eq.
  - by rewrite lookup_insert_ne.
Qed.

(** Writing the same files again changes nothing. *)
Lemma apply_writes_absorb (ws : list (string * string))
    (fs : gmap string node) :
  apply_writes ws (apply_writes ws fs) = apply_writes ws fs.
Proof.
  apply map_eq. intros q. rewrite !lookup_apply_writes.
  by destruct (written q ws).
Qed.


Section Runs.

Variable serve : string → gmap string string → option response.
Variable cookie_header : list exchange → string → gmap string string.
Variable json_loads : string → option json.
Variable py_repr : json → string.

#[local] Abbreviation loop := (for_images serve cookie_header py_repr).
#[local] Abbreviation image_url := (construct_image_url py_repr).
#[local] Abbreviation loop_pages := (pages serve cookie_header py_repr).
#[local] Abbreviation cookies_for := (session_cookies cookie_header).

(** One turn of the loop. *)
Lemma for_images_cons (s : nat) (pid : option string) (image_type : string)
    (mw mh : option Z) (index : nat) (image_id : json) (rest : list json)
    (w : world) :
  let url := image_url image_id image_type mw mh in
  let file := filename pid index image_type in
  let cookies := cookies_for (history_of w s) url in
  let w1 := emit (EvGet (Some s) url cookies) w in
  loop s pid image_type mw mh index (image_id :: rest) w =
    match serve url cookies with
    | None => (Raise RequestException, w1)
    | Some r =>
        match write_bytes file (r_content r)
                (set_history s (history_of w s ++ [(url, r)]) w1) with
        | (Ok _, w2) =>
            loop s pid image_type mw mh (S index) rest
              (foldl (λ w e, emit e w) w2 (display_events image_type file))
        | (Raise e, w2) => (Raise e, w2)
        end
    end.
Proof.
  intros url file cookies w1. cbn [for_images].
  unfold mbind, M_bind, session_get. fold (history_of w s). fold url.
  fold cookies. fold w1.
  destruct (serve url cookies) as [r|]; [|done].
  fold file.
  destruct (write_bytes file (r_content r) _) as [[[]|e] w2]; [|done].
  unfold display_events. destruct (displayable image_type); done.
Qed.

Lemma foldl_emit_sessions (events : list event) (w : world) :
  w_sessions (foldl (λ w e, emit e w) w events) = w_sessions w.
Proof.
  revert w. induction events as [|e es IH]; intros w; simpl; [done|].
  by rewrite IH.
Qed.

Lemma foldl_emit_fs (events : list event) (w : world) :
  w_fs (foldl (λ w e, emit e w) w events) = w_fs w.
Proof.
  revert w. induction events as [|e es IH]; intros w; simpl; [done|].
  by rewrite IH.
Qed.

Lemma foldl_emit_cwd (events : list event) (w : world) :
  w_cwd (foldl (λ w e, emit e w) w events) = w_cwd w.
Proof.
  revert w. induction events as [|e es IH]; intros w; simpl; [done|].
  by rewrite IH.
Qed.

Lemma foldl_emit_trace (events : list event) (w : world) :
  w_trace (foldl (λ w e, emit e w) w events) = w_trace w ++ events.
Proof.
  revert w. induction events as [|e es IH]; intros w; simpl.
  - by rewrite app_nil_r.
  - rewrite IH. simpl. by rewrite <-app_assoc.
Qed.

Lemma exchanges_of_app (l1 l2 : list event) :
  exchanges_of serve (l1 ++ l2)
  = exchanges_of serve l1 ++ exchanges_of serve l2.
Proof. apply omap_app. Qed.

Lemma exchanges_of_display (image_type file : string) :
  exchanges_of serve (display_events image_type file) = [].
Proof. unfold display_events. by destruct (displayable image_type). Qed.

(** The world after one page of the loop. *)
Lemma page_world (s : nat) (url : string) (cookies : gmap string string)
    (history : list exchange) (key p d image_type : string) (w : world) :
  let w1 := set_history s history (emit (EvGet (Some s) url cookies) w) in
  let w2 :=
    foldl (λ w e, emit e w)
      (set_fs (<[key := File d]> (w_fs w1)) (emit (EvWrite p d) w1))
      (display_events image_type p) in
  w_sessions w2 = <[s := history]> (w_sessions w)
  ∧ w_cwd w2 = w_cwd w
  ∧ w_fs w2 = <[key := File d]> (w_fs w)
  ∧ w_trace w2
    = w_trace w ++ EvGet (Some s) url cookies :: EvWrite p d
        :: display_events image_type p.
Proof.
  intros w1 w2. unfold w2, w1.
  rewrite foldl_emit_sessions, foldl_emit_fs, foldl_emit_cwd, foldl_emit_trace.
  split_and!; [done..|]. simpl. by rewrite <-app_assoc, <-app_assoc.
Qed.

Lemma history_of_insert (s : nat) (history : list exchange) (w w' : world) :
  s < length (w_sessions w) →
  w_sessions w' = <[s := history]> (w_sessions w) →
  history_of w' s = history.
Proof.
  intros Hs Hw'. unfold history_of. rewrite Hw'.
  by rewrite list_lookup_insert_eq.
Qed.

(** The loop only appends to the trace, what it appends is a trace of
    [pages], and it touches no session but its own, to which it adds the
    exchanges of its requests. *)
Lemma for_images_pages (s : nat) (pid : option string) (image_type : string)
    (mw mh : option Z) (image_ids : list json) :
  ∀ (index : nat) (w : world),
    s < length (w_sessions w) →
    ∃ events,
      w_trace (loop s pid image_type mw mh index image_ids w).2
        = w_trace w ++ events
      ∧ loop_pages s pid image_type mw mh (history_of w s) index image_ids
          events (loop s pid image_type mw mh index image_ids w).1
      ∧ length (w_sessions (loop s pid image_type mw mh index image_ids w).2)
          = length (w_sessions w)
      ∧ (∀ i, i ≠ s →
          w_sessions (loop s pid image_type mw mh index image_ids w).2 !! i
            = w_sessions w !! i)
      ∧ history_of (loop s pid image_type mw mh index image_ids w).2 s
          = history_of w s ++ exchanges_of serve events
      ∧ w_cwd (loop s pid image_type mw mh index image_ids w).2 = w_cwd w.
Proof.
  induction image_ids as [|image_id rest IH]; intros index w Hs.
  - exists []. simpl. rewrite !app_nil_r. split_and!; try done. constructor.
  - rewrite for_images_cons. cbv zeta.
    set (url := image_url image_id image_type mw mh).
    set (file := filename pid index image_type).
    set (cookies := cookies_for (history_of w s) url).
    destruct (serve url cookies) as [r|] eqn:Hserve; last first.
    { exists [EvGet (Some s) url cookies]. split_and!; try done.
      - by constructor.
      - unfold exchanges_of. simpl. rewrite Hserve. by rewrite app_nil_r. }
    set (history := history_of w s ++ [(url, r)]).
    destruct (write_bytes_cases file (r_content r)
                (set_history s history (emit (EvGet (Some s) url cookies) w)))
      as [(Hw & _)|(e & Hw & He & _)]; rewrite Hw; last first.
    { exists [EvGet (Some s) url cookies; EvWrite file (r_content r)].
      split_and!.
      - simpl. by rewrite <-app_assoc.
      - by econstructor.
      - simpl. by rewrite length_insert.
      - intros i Hi. simpl. by rewrite list_lookup_insert_ne.
      - unfold history_of at 1, exchanges_of. simpl. rewrite Hserve.
        by rewrite list_lookup_insert_eq.
      - done. }
    change (w_cwd (set_history s history
                     (emit (EvGet (Some s) url cookies) w))) with (w_cwd w).
    destruct (page_world s url cookies history
                (target_key (w_cwd w) file) file (r_content r) image_type w)
      as (Hsess & Hcwd & _ & Htrace).
    cbv zeta in Hsess, Hcwd, Htrace.
    match goal with |- context [loop _ _ _ _ _ _ _ ?w2] =>
      set (W2 := w2) in * end.
    pose proof (history_of_insert s history w W2 Hs Hsess) as Hhist.
    destruct (IH (S index) W2)
      as (events & Htr & Hpages & Hlen & Hother & Hhist2 & Hcwd2).
    { rewrite Hsess. by rewrite length_insert. }
    exists (EvGet (Some s) url cookies
            :: EvWrite file (r_content r)
            :: display_events image_type file ++ events).
    split_and!.
    + rewrite Htr, Htrace. by rewrite <-app_assoc.
    + eapply pages_next; [done|]. fold url. fold history. by rewrite <-Hhist.
    + by rewrite Hlen, Hsess, length_insert.
    + intros i Hi. rewrite Hother, Hsess by done.
      by rewrite list_lookup_insert_ne.
    + rewrite Hhist2, Hhist. unfold history.
      change (EvGet (Some s) url cookies :: EvWrite file (r_content r)
              :: display_events image_type file ++ events)
        with ([EvGet (Some s) url cookies; EvWrite file (r_content r)]
              ++ display_events image_type file ++ events).
      rewrite !exchanges_of_app, exchanges_of_display. simpl.
      fold cookies. rewrite Hserve. simpl. by rewrite <-app_assoc.
    + by rewrite Hcwd2.
Qed.

Lemma insert_snoc {A} (l : list A) (x y : A) :
  <[length l := y]> (l ++ [x]) = l ++ [y].
Proof. induction l as [|a l IH]; simpl; [done|]. by rewrite IH. Qed.

Lemma lookup_snoc {A} (l : list A) (x : A) : (l ++ [x]) !! length l = Some x.
Proof. induction l as [|a l IH]; simpl; done. Qed.

(** [download_image], step by step. *)
Lemma download_image_run (handle_url image_type : string) (mw mh : option Z)
    (w : world) :
  download_image serve cookie_header json_loads py_repr handle_url image_type
    mw mh w =
    match serve handle_url ∅ with
    | None => (Raise RequestException, emit (EvGet None handle_url ∅) w)
    | Some r0 =>
        let pid := search_entity (r_url r0) in
        match serve (manifest_url pid) ∅ with
        | None => (Raise RequestException, manifest_requested handle_url pid w)
        | Some r1 =>
            let w3 := manifest_received handle_url pid r1 w in
            match json_loads (r_content r1) with
            | None => (Raise JSONDecodeError, w3)
            | Some manifest =>
                match get_image_ids manifest with
                | Raise e => (Raise e, w3)
                | Ok image_ids =>
                    match mkdir "images" w3 with
                    | (Ok _, w4) =>
                        loop (length (w_sessions w)) pid image_type mw mh 0
                          image_ids w4
                    | (Raise e, w4) => (Raise e, w4)
                    end
                end
            end
        end
    end.
Proof.
  unfold download_image. unfold mbind at 1, M_bind at 1.
  rewrite get_pid_run.
  destruct (serve handle_url ∅) as [r0|]; [|done].
  cbv zeta. set (pid := search_entity (r_url r0)).
  unfold mbind at 1, M_bind at 1, Session.
  unfold mbind at 1, M_bind at 1, session_get. simpl.
  rewrite lookup_snoc. simpl.
  destruct (serve (manifest_url pid) ∅) as [r1|]; last first.
  { unfold manifest_requested, emit. simpl. by rewrite <-app_assoc. }
  unfold set_history, emit. simpl. rewrite insert_snoc.
  rewrite <-app_assoc. simpl. fold (manifest_received handle_url pid r1 w).
  unfold mbind at 1, M_bind at 1, response_json.
  destruct (json_loads (r_content r1)) as [manifest|]; [|done].
  simpl. unfold mbind at 1, M_bind at 1, lift.
  destruct (get_image_ids manifest) as [image_ids|e]; [|done].
  unfold mbind at 1, M_bind at 1.
  by destruct (mkdir "images" _) as [[[]|e] w4].
Qed.

Lemma writes_of_app (l1 l2 : list event) :
  writes_of (l1 ++ l2) = writes_of l1 ++ writes_of l2.
Proof. apply omap_app. Qed.

Lemma session_gets_of_app (l1 l2 : list event) :
  session_gets_of (l1 ++ l2) = session_gets_of l1 ++ session_gets_of l2.
Proof. apply omap_app. Qed.

Lemma writes_of_display (image_type file : string) :
  writes_of (display_events image_type file) = [].
Proof. unfold display_events. by destruct (displayable image_type). Qed.

Lemma session_gets_of_display (image_type file : string) :
  session_gets_of (display_events image_type file) = [].
Proof. unfold display_events. by destruct (displayable image_type). Qed.






(** The writes of the loop, one after each request, in the order of the
    identifiers: the k-th goes to the file of position [index + k]. *)
Lemma pages_writes (s : nat) (pid : option string) (image_type : string)
    (mw mh : option Z) (history : list exchange) (index : nat)
    (image_ids : list json) (events : list event) (res : result unit) :
  loop_pages s pid image_type mw mh history index image_ids events res →
  (∀ k p d, writes_of events !! k = Some (p, d) →
     p = filename pid (index + k) image_type
     ∧ ∃ image_id,
         image_ids !! k = Some image_id
         ∧ session_gets_of events !! k
           = Some (image_url image_id image_type mw mh))
  ∧ (res = Ok () →
     length (writes_of events) = length image_ids
     ∧ session_gets_of events
       = (λ image_id, image_url image_id image_type mw mh) <$> image_ids).
Proof.
  induction 1 as [history index|history index image_id rest url Hserve
                 |history index image_id rest r e url Hserve He
                 |history index image_id rest r events res url Hserve Hpages IH].
  - split; [|done]. by intros k p d.
  - split; [|done]. by intros k p d.
  - split; [|done]. intros [|k] p d; simpl; [|done].
    intros [= <- <-]. rewrite Nat.add_0_r. eauto.
  - destruct IH as [IHw IHok].
    change (EvGet (Some s) url (cookies_for history url)
            :: EvWrite (filename pid index image_type) (r_content r)
            :: display_events image_type (filename pid index image_type)
            ++ events)
      with ([EvGet (Some s) url (cookies_for history url);
             EvWrite (filename pid index image_type) (r_content r)]
            ++ display_events image_type (filename pid index image_type)
            ++ events).
    rewrite !session_gets_of_app, session_gets_of_display.
    rewrite !writes_of_app, writes_of_display. simpl.
    split.
    + intros [|k] p d; simpl.
      * intros [= <- <-]. rewrite Nat.add_0_r. eauto.
      * intros Hk. destruct (IHw k p d Hk) as (-> & Hid).
        split; [f_equal; lia | done].
    + intros Hres. destruct (IHok Hres) as [Hlen Hgets].
      by rewrite Hlen, Hgets.
Qed.

Lemma loop_entry_facts (handle_url : string) (pid : option string)
    (r : response) (w : world) :
  let s := length (w_sessions w) in
  let w4 := loop_entry handle_url pid r w in
  s < length (w_sessions w4)
  ∧ length (w_sessions w4) = S s
  ∧ (∀ i, i < s → w_sessions w4 !! i = w_sessions w !! i)
  ∧ history_of w4 s = [(manifest_url pid, r)]
  ∧ w_cwd w4 = w_cwd w
  ∧ w_fs w4 = <["images" := Dir]> (w_fs w)
  ∧ w_trace w4 = w_trace w ++
      [EvGet None handle_url ∅; EvGet (Some s) (manifest_url pid) ∅;
       EvMkdir "images"].
Proof.
  intros s w4. unfold w4, loop_entry, history_of, s. simpl. split_and!.
  - rewrite length_app. simpl. lia.
  - rewrite length_app. simpl. lia.
  - intros i Hi. by rewrite lookup_app_l.
  - by rewrite lookup_snoc.
  - done.
  - done.
  - by rewrite <-app_assoc.
Qed.

Lemma mkdir_loop_entry (handle_url : string) (pid : option string)
    (r : response) (w : world) :
  (∀ d, w_fs w !! "images" ≠ Some (File d)) →
  mkdir "images" (manifest_received handle_url pid r w)
    = (Ok (), loop_entry handle_url pid r w).
Proof.
  intros Himages.
  destruct (mkdir_images_cases (manifest_received handle_url pid r w))
    as [(d & Hd & _)|(_ & ->)]; [by destruct (Himages d)|done].
Qed.

(** A run whose manifest yields identifiers, and that can make its
    directory, ends with its loop, entered with the session that has had
    the manifest exchange. *)
Lemma download_image_loop (handle_url image_type : string)
    (mw mh : option Z) (w : world) (r0 r1 : response) (manifest : json)
    (image_ids : list json) :
  serve handle_url ∅ = Some r0 →
  serve (manifest_url (search_entity (r_url r0))) ∅ = Some r1 →
  json_loads (r_content r1) = Some manifest →
  get_image_ids manifest = Ok image_ids →
  (∀ d, w_fs w !! "images" ≠ Some (File d)) →
  let pid := search_entity (r_url r0) in
  let s := length (w_sessions w) in
  let run :=
    download_image serve cookie_header json_loads py_repr handle_url
      image_type mw mh w in
  run = loop s pid image_type mw mh 0 image_ids
          (loop_entry handle_url pid r1 w)
  ∧ ∃ events,
      w_trace run.2 = w_trace w ++
        [EvGet None handle_url ∅; EvGet (Some s) (manifest_url pid) ∅;
         EvMkdir "images"] ++ events
      ∧ loop_pages s pid image_type mw mh [(manifest_url pid, r1)] 0
          image_ids events run.1
      ∧ length (w_sessions run.2) = S s
      ∧ (∀ i, i < s → w_sessions run.2 !! i = w_sessions w !! i)
      ∧ history_of run.2 s
        = (manifest_url pid, r1) :: exchanges_of serve events
      ∧ w_cwd run.2 = w_cwd w.
Proof.
  intros Hr0 Hr1 Hjson Hids Himages pid s run.
  assert (run = loop s pid image_type mw mh 0 image_ids
                  (loop_entry handle_url pid r1 w)) as Hrun.
  { unfold run. rewrite download_image_run, Hr0. cbv zeta. fold pid.
    fold pid in Hr1. rewrite Hr1, Hjson, Hids.
    by rewrite mkdir_loop_entry. }
  split; [done|]. rewrite Hrun.
  destruct (loop_entry_facts handle_url pid r1 w)
    as (Hs & Hlen4 & Hold4 & Hhist4 & Hcwd4 & _ & Htr4).
  fold s in Hs, Hlen4, Hold4, Hhist4, Htr4.
  destruct (for_images_pages s pid image_type mw mh image_ids 0
              (loop_entry handle_url pid r1 w) Hs)
    as (events & Htr & Hpages & Hlen & Hother & Hhist & Hcwd).
  exists events. rewrite Hhist4 in Hpages, Hhist. split_and!.
  - rewrite Htr, Htr4. by rewrite <-app_assoc.
  - done.
  - by rewrite Hlen.
  - intros i Hi. rewrite Hother by lia. by apply Hold4.
  - done.
  - by rewrite Hcwd.
Qed.


Lemma get_image_ids_Ok (manifest : json) (items ids : list json) :
  manifest_items manifest items → Forall2 canvas_has_id items ids →
  get_image_ids manifest = Ok ids.
Proof.
  intros (mm & s0 & others & cv & -> & Hseq & Hcv & Hitems) Hall.
  unfold get_image_ids; simpl. rewrite Hseq; simpl. rewrite Hcv; simpl.
  rewrite (canvas_items_iterate _ _ Hitems); simpl.
  by rewrite (for_canvases_Forall2 items ids []).
Qed.



(** C8, amended: the manifest is requested, through the session, at the
    url made of the fixed template and the identifier; the status of the
    response is not examined; a body that is not JSON raises the decoder's
    [JSONDecodeError] (there is no [ManifestFetchError]), and any other
    body is returned parsed, whatever the status; a request that raises
    propagates the exception of the HTTP client. [fetch_manifest] is that
    part of [download_image]. *)
Theorem fetch_manifest_any_status (s : nat) (pid : option string) (w : world) :
  (∀ handle_url image_type mw mh w0,
     download_image serve cookie_header json_loads py_repr handle_url
       image_type mw mh w0
     = (pid ← get_pid serve handle_url;
        s ← Session;
        manifest ← fetch_manifest serve cookie_header json_loads s pid;
        image_ids ← lift (get_image_ids manifest);
        _ ← mkdir "images";
        for_images serve cookie_header py_repr s pid image_type mw mh 0
          image_ids) w0)
  ∧ manifest_url pid
    = "https://rosetta.slv.vic.gov.au/delivery/iiif/presentation/2.1/"
        +:+ str_pid pid +:+ "/manifest"
  ∧ w_trace (fetch_manifest serve cookie_header json_loads s pid w).2
    = w_trace w ++
        [EvGet (Some s) (manifest_url pid)
           (cookies_for (history_of w s) (manifest_url pid))]
  ∧ match serve (manifest_url pid)
            (cookies_for (history_of w s) (manifest_url pid)) with
    | None =>
        (fetch_manifest serve cookie_header json_loads s pid w).1
        = Raise RequestException
    | Some r =>
        (fetch_manifest serve cookie_header json_loads s pid w).1
        = match json_loads (r_content r) with
          | Some manifest => Ok manifest
          | None => Raise JSONDecodeError
          end
    end.
Proof.
  split_and!.
  - intros handle_url image_type mw mh w0.
    unfold download_image, fetch_manifest. unfold mbind, M_bind.
    destruct (get_pid serve handle_url w0) as [[pid'|e] w1]; [|done].
    destruct (Session w1) as [[s'|e] w2]; [|done].
    destruct (session_get serve cookie_header s' (manifest_url pid') w2)
      as [[r|e] w3]; [|done].
    by destruct (response_json json_loads r w3) as [[manifest|e] w4].
  - done.
  - unfold fetch_manifest, mbind, M_bind, session_get.
    fold (history_of w s).
    destruct (serve (manifest_url pid) _) as [r|]; [|done].
    unfold response_json.
    by destruct (json_loads (r_content r)).
  - unfold fetch_manifest, mbind, M_bind, session_get.
    fold (history_of w s).
    destruct (serve (manifest_url pid) _) as [r|]; [|done].
    unfold response_json.
    by destruct (json_loads (r_content r)).
Qed.

(** Two runs of the loop by sessions with the same exchanges, in the same
    working directory, on file systems with the same directories, attempt
    the same writes [wl] and perform the same writes [ws]. *)
Lemma for_images_lockstep (pid : option string) (image_type : string)
    (mw mh : option Z) (image_ids : list json) :
  ∀ (index sa sb : nat) (wa wb : world),
    sa < length (w_sessions wa) → sb < length (w_sessions wb) →
    history_of wa sa = history_of wb sb →
    w_cwd wa = w_cwd wb →
    same_dirs (w_fs wa) (w_fs wb) →
    ∃ ws wl,
      w_fs (loop sa pid image_type mw mh index image_ids wa).2
        = apply_writes ws (w_fs wa)
      ∧ w_fs (loop sb pid image_type mw mh index image_ids wb).2
        = apply_writes ws (w_fs wb)
      ∧ same_dirs (w_fs wa)
          (w_fs (loop sa pid image_type mw mh index image_ids wa).2)
      ∧ writes_of (w_trace (loop sa pid image_type mw mh index image_ids wa).2)
        = writes_of (w_trace wa) ++ wl
      ∧ writes_of (w_trace (loop sb pid image_type mw mh index image_ids wb).2)
        = writes_of (w_trace wb) ++ wl.
Proof.
  induction image_ids as [|image_id rest IH];
    intros index sa sb wa wb Hsa Hsb Hhist Hcwd Hdirs.
  - exists [], []. simpl. rewrite !app_nil_r.
    split_and!; try done; apply same_dirs_refl.
  - rewrite !for_images_cons. cbv zeta. rewrite <-Hhist.
    set (url := image_url image_id image_type mw mh).
    set (file := filename pid index image_type).
    set (cookies := cookies_for (history_of wa sa) url).
    destruct (serve url cookies) as [r|] eqn:Hserve; last first.
    { exists [], []. simpl. rewrite !writes_of_app. simpl.
      split_and!; try done; apply same_dirs_refl. }
    set (history := history_of wa sa ++ [(url, r)]).
    destruct (write_bytes_cases file (r_content r)
                (set_history sa history
                   (emit (EvGet (Some sa) url cookies) wa)))
      as [(Hwa & Hra & Hta)|(ea & Hwa & _ & Hra)];
    destruct (write_bytes_cases file (r_content r)
                (set_history sb history
                   (emit (EvGet (Some sb) url cookies) wb)))
      as [(Hwb & Hrb & Htb)|(eb & Hwb & _ & Hrb)];
    rewrite Hwa, Hwb; cbn [w_fs w_cwd set_history emit] in *.
    + destruct (page_world sa url cookies history (target_key (w_cwd wa) file)
                  file (r_content r) image_type wa)
        as (Hsa2 & Hca2 & Hfa2 & Hta2).
      destruct (page_world sb url cookies history (target_key (w_cwd wb) file)
                  file (r_content r) image_type wb)
        as (Hsb2 & Hcb2 & Hfb2 & Htb2).
      cbv zeta in Hsa2, Hca2, Hfa2, Hta2, Hsb2, Hcb2, Hfb2, Htb2.
      cbn [w_fs w_cwd set_history emit] in *.
      match goal with |- context [loop sa _ _ _ _ _ _ ?w2] =>
        set (WA := w2) in * end.
      match goal with |- context [loop sb _ _ _ _ _ _ ?w2] =>
        set (WB := w2) in * end.
      destruct (IH (S index) sa sb WA WB) as (ws & wl & H1 & H2 & H3 & H4 & H5).
      * by rewrite Hsa2, length_insert.
      * by rewrite Hsb2, length_insert.
      * by rewrite (history_of_insert sa history wa WA),
                   (history_of_insert sb history wb WB).
      * by rewrite Hca2, Hcb2.
      * rewrite Hfa2, Hfb2, <-Hcwd. by apply same_dirs_write.
      * exists ((target_key (w_cwd wa) file, r_content r) :: ws),
               ((file, r_content r) :: wl).
        rewrite H1, Hfa2 in H3.
        rewrite H1, H2, H4, H5, Hfa2, Hfb2, Hta2, Htb2, <-Hcwd.
        change (EvGet (Some sa) url cookies :: EvWrite file (r_content r)
                :: display_events image_type file)
          with ([EvGet (Some sa) url cookies; EvWrite file (r_content r)]
                ++ display_events image_type file).
        change (EvGet (Some sb) url cookies :: EvWrite file (r_content r)
                :: display_events image_type file)
          with ([EvGet (Some sb) url cookies; EvWrite file (r_content r)]
                ++ display_events image_type file).
        rewrite !writes_of_app, !writes_of_display. simpl.
        split_and!; [done|done| |by rewrite <-app_assoc|by rewrite <-app_assoc].
        eapply same_dirs_trans; [|exact H3].
        by apply same_dirs_write_l.
    + exfalso. rewrite <-Hcwd in Hrb.
      apply (resolve_same_dirs _ _ _ _ _ Hdirs) in Hra. congruence.
    + exfalso. rewrite <-Hcwd in Hrb.
      apply (resolve_same_dirs _ _ _ _ _ (same_dirs_sym _ _ Hdirs)) in Hrb.
      congruence.
    + exists [], [(file, r_content r)]. simpl.
      rewrite !writes_of_app. simpl.
      split_and!; try done; try apply same_dirs_refl; by rewrite app_nil_r.
Qed.

(** C9: a second run of [download_image] with the same arguments, the
    servers answering as before, attempts the same writes (same paths, same
    data) and leaves the directory as the first run left it: the same
    files, each with the contents the first run gave it, nothing appended
    and no further file. *)
Theorem download_image_twice
    (handle_url image_type : string) (mw mh : option Z) (w : world) :
  let run1 :=
    download_image serve cookie_header json_loads py_repr handle_url
      image_type mw mh w in
  let run2 :=
    download_image serve cookie_header json_loads py_repr handle_url
      image_type mw mh run1.2 in
  w_fs run2.2 = w_fs run1.2
  ∧ dom (w_fs run2.2) = dom (w_fs run1.2)
  ∧ ∃ wl, writes_of (w_trace run1.2) = writes_of (w_trace w) ++ wl
          ∧ writes_of (w_trace run2.2) = writes_of (w_trace run1.2) ++ wl.
Proof.
  intros run1 run2.
  enough (w_fs run2.2 = w_fs run1.2
          ∧ ∃ wl, writes_of (w_trace run1.2) = writes_of (w_trace w) ++ wl
                  ∧ writes_of (w_trace run2.2)
                    = writes_of (w_trace run1.2) ++ wl) as [Hfs Hwl].
  { split_and!; [done| by rewrite Hfs | done]. }
  unfold run2, run1. clear run1 run2.
  rewrite (download_image_run handle_url image_type mw mh w).
  destruct (serve handle_url ∅) as [r0|] eqn:Hr0; last first.
  { rewrite download_image_run, Hr0. simpl. split; [done|]. exists [].
    rewrite !writes_of_app. simpl. by rewrite !app_nil_r. }
  cbv zeta. set (pid := search_entity (r_url r0)).
  destruct (serve (manifest_url pid) ∅) as [r1|] eqn:Hr1; last first.
  { rewrite download_image_run, Hr0. cbv zeta. fold pid. rewrite Hr1.
    simpl. split; [done|]. exists [].
    rewrite !writes_of_app. simpl. by rewrite !app_nil_r. }
  destruct (json_loads (r_content r1)) as [manifest|] eqn:Hjson; last first.
  { rewrite download_image_run, Hr0. cbv zeta. fold pid. rewrite Hr1, Hjson.
    simpl. split; [done|]. exists [].
    rewrite !writes_of_app. simpl. by rewrite !app_nil_r. }
  destruct (get_image_ids manifest) as [image_ids|e] eqn:Hids; last first.
  { rewrite download_image_run, Hr0. cbv zeta. fold pid.
    rewrite Hr1, Hjson, Hids.
    simpl. split; [done|]. exists [].
    rewrite !writes_of_app. simpl. by rewrite !app_nil_r. }
  destruct (mkdir_images_cases (manifest_received handle_url pid r1 w))
    as [(d & Hd & ->)|(Hnd & _)].
  { rewrite download_image_run, Hr0. cbv zeta. fold pid.
    rewrite Hr1, Hjson, Hids.
    match goal with |- context [mkdir "images" ?w3] =>
      destruct (mkdir_images_cases w3) as [(d' & _ & ->)|(Hn & _)] end;
      [|by destruct (Hn d)].
    simpl. split; [done|]. exists [].
    rewrite !writes_of_app. simpl. by rewrite !app_nil_r. }
  rewrite (mkdir_loop_entry handle_url pid r1 w Hnd).
  set (sa := length (w_sessions w)).
  set (W4 := loop_entry handle_url pid r1 w).
  destruct (loop_entry_facts handle_url pid r1 w)
    as (Hsa & _ & _ & Hhist4 & Hcwd4 & Hfs4 & Htr4).
  fold sa W4 in Hsa, Hhist4, Hcwd4, Hfs4, Htr4.
  assert (w_fs W4 !! "images" = Some Dir) as Himages.
  { rewrite Hfs4. by rewrite lookup_insert_eq. }
  assert (writes_of (w_trace W4) = writes_of (w_trace w)) as Hwr4.
  { rewrite Htr4, writes_of_app. simpl. by rewrite app_nil_r. }
  destruct (for_images_lockstep pid image_type mw mh image_ids 0 sa sa W4 W4)
    as (_ & _ & _ & _ & Hdirs1 & _); [done..|apply same_dirs_refl|].
  destruct (for_images_pages sa pid image_type mw mh image_ids 0 W4 Hsa)
    as (_ & _ & _ & _ & _ & _ & Hcwd1).
  set (W1 := (loop sa pid image_type mw mh 0 image_ids W4).2) in *.
  rewrite download_image_run, Hr0. cbv zeta. fold pid.
  rewrite Hr1, Hjson, Hids.
  rewrite (mkdir_loop_entry handle_url pid r1 W1); last first.
  { intros d' Hd'. apply Hdirs1 in Himages. congruence. }
  set (sb := length (w_sessions W1)).
  set (W4' := loop_entry handle_url pid r1 W1).
  destruct (loop_entry_facts handle_url pid r1 W1)
    as (Hsb & _ & _ & Hhist4' & Hcwd4' & Hfs4' & Htr4').
  fold sb W4' in Hsb, Hhist4', Hcwd4', Hfs4', Htr4'.
  assert (w_fs W4' = w_fs W1) as Hfs1.
  { rewrite Hfs4'. apply insert_id. by apply Hdirs1. }
  assert (writes_of (w_trace W4') = writes_of (w_trace W1)) as Hwr4'.
  { rewrite Htr4', writes_of_app. simpl. by rewrite app_nil_r. }
  destruct (for_images_lockstep pid image_type mw mh image_ids 0 sa sb W4 W4')
    as (ws & wl & H1 & H2 & _ & H4 & H5).
  { done. }
  { done. }
  { by rewrite Hhist4, Hhist4'. }
  { by rewrite Hcwd4', Hcwd1. }
  { by rewrite Hfs1. }
  fold W1 in H1, H4. split.
  - rewrite H2, Hfs1, H1. apply apply_writes_absorb.
  - exists wl. split; [by rewrite H4, Hwr4|by rewrite H5, Hwr4'].
Qed.

End Runs.


(** When the images are on the host of the manifest, the cookie of the
    manifest response is in scope: the image request carries it. *)
Lemma download_image_cookie_in_scope :
  w_trace (download_image_default rosetta_server host_scoped rosetta_loads
             demo_repr demo_handle empty_world).2
  = [EvGet None demo_handle ∅;
     EvGet (Some 0) (manifest_url (Some "IE1164978")) ∅;
     EvMkdir "images";
     EvGet (Some 0) (rosetta_service +:+ "/full/max/0/default.jpg")
       {[ "JSESSIONID" := "1" ]};
     EvWrite "images/slv-IE1164978-0.jpg" "JPEG";
     EvDisplay (image_html "images/slv-IE1164978-0.jpg")].
Proof. by vm_compute. Qed.

(** C8, as stated, fails: the manifest endpoint answers 404 with a JSON
    body and the fetch returns the parsed body; and a body that is not
    JSON raises [JSONDecodeError], not [ManifestFetchError]. *)
Lemma fetch_manifest_ignores_status :
  not_found_server (manifest_url (Some "IE1164978")) ∅ = Some not_found
  ∧ r_status not_found = 404%Z
  ∧ (fetch_manifest not_found_server host_scoped demo_loads 0
       (Some "IE1164978") one_session_world).1 = Ok (JObj ∅)
  ∧ (download_image_default not_found_server host_scoped demo_loads demo_repr
       demo_handle empty_world).1 = Raise (KeyError (JStr "sequences"))
  ∧ (fetch_manifest static_server host_scoped demo_loads 0 (Some "IE1164978")
       one_session_world).1 = Raise JSONDecodeError
  ∧ exn_name JSONDecodeError ≠ "ManifestFetchError".
Proof. split_and!; by vm_compute. Qed.




(** * Further properties of the code *)

(** ** [get_pid] and [get_image_ids] *)

(** X1: A pid that [get_pid] returns is [IE] followed by at least one digit;
    it stands in the final url of the Handle request, right after
    [entity=], and takes all the digits there are: no digit follows it. *)
Theorem get_pid_shape
    (serve : string → gmap string string → option response)
    (handle_url : string) (w : world) (g : string) :
  (get_pid serve handle_url w).1 = Ok (Some g) →
  ∃ ds r pre post,
    g = "IE" +:+ ds ∧ ds ≠ "" ∧ digits ds = true
    ∧ serve handle_url ∅ = Some r
    ∧ r_url r = pre +:+ "entity=" +:+ g +:+ post
    ∧ starts_with_digit post = false.
Proof.
  rewrite get_pid_run. simpl.
  destruct (serve handle_url ∅) as [r|]; [|done].
  intros [= Hs]. apply search_entity_Some in Hs as (pre & suf & Hurl & Hm & _).
  destruct Hm as (ds & rest & -> & Hne & Hds & Hrest & ->).
  exists ds, r, pre, rest. by split_and!.
Qed.

Lemma get_pid_shape_witness :
  ∃ ds r pre post,
    "IE1164978" = "IE" +:+ ds ∧ ds ≠ "" ∧ digits ds = true
    ∧ demo_server demo_handle ∅ = Some r
    ∧ r_url r = pre +:+ "entity=" +:+ "IE1164978" +:+ post
    ∧ starts_with_digit post = false.
Proof.
  apply (get_pid_shape demo_server demo_handle empty_world "IE1164978").
  vm_compute. reflexivity.
Defined.

Lemma manifest_items_fun (manifest : json) (items items' : list json) :
  manifest_items manifest items → manifest_items manifest items' →
  items = items'.
Proof.
  intros (mm & s0 & others & cv & -> & Hseq & Hcv & Hitems)
         (mm' & s0' & others' & cv' & Hmm & Hseq' & Hcv' & Hitems').
  simplify_eq.
  destruct Hitems as [->|[-> Hcv1]], Hitems' as [Heq|[-> Hcv2]];
    try done.
  - by injection Heq.
  - by destruct Hcv2.
  - by destruct Hcv1; simplify_eq.
Qed.

Lemma Forall2_canvas_has_id_iff (items items' ids : list json) :
  Forall2 (λ c c', ∀ id, canvas_has_id c id ↔ canvas_has_id c' id)
    items items' →
  Forall2 canvas_has_id items ids → Forall2 canvas_has_id items' ids.
Proof.
  intros Hall. revert ids.
  induction Hall as [|c c' cs cs' Hc _ IH]; intros ids Hids.
  - by inversion Hids.
  - inversion Hids as [|? id ? ids' Hid Hrest]; subst.
    constructor; [by apply Hc|by apply IH].
Qed.

Lemma get_image_ids_Ok_iff (manifest : json) (items ids : list json) :
  manifest_items manifest items →
  get_image_ids manifest = Ok ids ↔ Forall2 canvas_has_id items ids.
Proof.
  intros Hitems. split.
  - intros Hok. pose proof (get_image_ids_cases manifest) as Hcases.
    rewrite Hok in Hcases. destruct Hcases as (items0 & Hitems0 & Hall).
    by rewrite (manifest_items_fun _ _ _ Hitems Hitems0).
  - intros Hall.
    destruct Hitems as (mm & s0 & others & cv & -> & Hseq & Hcv & Hitems).
    unfold get_image_ids; simpl. rewrite Hseq; simpl. rewrite Hcv; simpl.
    rewrite (canvas_items_iterate _ _ Hitems); simpl.
    by rewrite (for_canvases_Forall2 items ids []).
Qed.

(** X2: whether [get_image_ids] returns a list, and which, depends on
    nothing but the canvases of the first sequence and, in each, the
    service identifier of the first image: two manifests whose canvases
    carry, one by one, the same identifier there (or none) give the same
    list, or both raise, whatever their other keys, later sequences and
    later images. *)
Theorem get_image_ids_depends_on_ids_only
    (manifest manifest' : json) (items items' : list json) :
  manifest_items manifest items →
  manifest_items manifest' items' →
  Forall2 (λ c c', ∀ id, canvas_has_id c id ↔ canvas_has_id c' id)
    items items' →
  ∀ ids, get_image_ids manifest = Ok ids ↔ get_image_ids manifest' = Ok ids.
Proof.
  intros Hm Hm' Hall ids.
  rewrite (get_image_ids_Ok_iff _ _ _ Hm), (get_image_ids_Ok_iff _ _ _ Hm').
  split.
  - by apply Forall2_canvas_has_id_iff.
  - apply Forall2_canvas_has_id_iff.
    apply Forall2_flip. eapply Forall2_impl; [exact Hall|].
    intros c c' Hc id. symmetry. apply Hc.
Qed.

Lemma rich_canvas_has_id : canvas_has_id rich_canvas (JStr "A").
Proof.
  eexists _, _, _, _, _. split; [reflexivity|].
  split_and!; by vm_compute.
Qed.

Lemma get_image_ids_depends_on_ids_only_witness :
  get_image_ids rich_manifest = Ok [JStr "A"].
Proof.
  apply (get_image_ids_depends_on_ids_only rich_manifest
           (manifest_of (JArr [canvas_of (JStr "A")]))
           [rich_canvas] [canvas_of (JStr "A")]).
  - eexists _, _, [JNull], _. split; [reflexivity|].
    split_and!; [by vm_compute|by vm_compute|by left].
  - eexists _, _, [], _. split; [reflexivity|].
    rewrite !lookup_singleton_eq. split_and!; try reflexivity. by left.
  - repeat constructor.
    + intros Hid.
      rewrite (canvas_has_id_fun _ _ _ Hid rich_canvas_has_id).
      apply canvas_of_has_id.
    + intros Hid.
      rewrite (canvas_has_id_fun _ _ _ Hid (canvas_of_has_id (JStr "A"))).
      apply rich_canvas_has_id.
  - vm_compute. reflexivity.
Defined.

Lemma for_canvases_app (good ids rest acc : list json) :
  Forall2 canvas_has_id good ids →
  for_canvases (good ++ rest) acc = for_canvases rest (acc ++ ids).
Proof.
  intros Hall. revert acc.
  induction Hall as [|c id cs ids Hc _ IH]; intros acc; simpl.
  - by rewrite app_nil_r.
  - rewrite (canvas_image_id_Ok c id Hc); simpl.
    by rewrite IH, <-app_assoc.
Qed.

(** X3: [get_image_ids] stops at the first canvas that does not yield an
    identifier and raises the exception of that canvas, whatever the
    canvases after it are; the identifiers found before are dropped. *)
Theorem get_image_ids_first_bad_canvas
    (mm s0 : gmap string json) (others good ids rest : list json)
    (bad : json) (e : exn) :
  mm !! "sequences" = Some (JArr (JObj s0 :: others)) →
  s0 !! "canvases" = Some (JArr (good ++ bad :: rest)) →
  Forall2 canvas_has_id good ids →
  canvas_image_id bad = Raise e →
  get_image_ids (JObj mm) = Raise e.
Proof.
  intros Hseq Hcv Hgood Hbad.
  unfold get_image_ids; simpl. rewrite Hseq; simpl. rewrite Hcv; simpl.
  rewrite (for_canvases_app good ids) by done. simpl. by rewrite Hbad.
Qed.

Lemma get_image_ids_first_bad_canvas_witness :
  get_image_ids
    (manifest_of (JArr [canvas_of (JStr "A"); bad_canvas; canvas_of (JStr "B")]))
  = Raise (KeyError (JStr "images")).
Proof.
  refine (get_image_ids_first_bad_canvas
    {[ "sequences" :=
         JArr [JObj {[ "canvases" :=
                 JArr [canvas_of (JStr "A"); bad_canvas;
                       canvas_of (JStr "B")] ]}] ]}
    {[ "canvases" :=
         JArr [canvas_of (JStr "A"); bad_canvas; canvas_of (JStr "B")] ]}
    [] [canvas_of (JStr "A")] [JStr "A"] [canvas_of (JStr "B")]
    bad_canvas (KeyError (JStr "images")) _ _ _ _).
  - apply lookup_singleton_eq.
  - apply lookup_singleton_eq.
  - repeat constructor. apply canvas_of_has_id.
  - reflexivity.
Defined.

(** ** File names *)

Lemma string_app_inj_l (s a b : string) : s +:+ a = s +:+ b → a = b.
Proof.
  induction s as [|c s IH]; [done|].
  rewrite !string_app_cons. intros [= H]. by apply IH.
Qed.

Lemma string_app_inj_r (s1 s2 t : string) : s1 +:+ t = s2 +:+ t → s1 = s2.
Proof.
  revert s2. induction s1 as [|c s1 IH]; intros [|c' s2] H.
  - done.
  - apply (f_equal String.length) in H.
    rewrite ?string_app_cons, ?string_app_nil_l in H. simpl in H.
    rewrite string_length_app in H. lia.
  - apply (f_equal String.length) in H.
    rewrite ?string_app_cons, ?string_app_nil_l in H. simpl in H.
    rewrite string_length_app in H. lia.
  - rewrite !string_app_cons in H. injection H as -> H.
    f_equal. by apply IH.
Qed.

Lemma filename_ne (pid : option string) (image_type : string) (i j : nat) :
  no_slash (str_pid pid) = true → no_slash image_type = true →
  i ≠ j → filename pid i image_type ≠ filename pid j image_type.
Proof.
  intros Hpid Htype Hij. rewrite !filename_literal by done.
  intros H%string_app_inj_l%string_app_inj_l%string_app_inj_l.
  apply string_app_inj_r in H. by apply (inj pretty) in H.
Qed.

(** X4: two pages never share a file: for an [image_type] without a slash,
    different indices give different file names. *)
Theorem filename_distinct (pid : option string) (image_type : string)
    (i j : nat) :
  no_slash (str_pid pid) = true → no_slash image_type = true →
  i ≠ j → filename pid i image_type ≠ filename pid j image_type.
Proof. apply filename_ne. Qed.

Lemma filename_distinct_witness :
  filename (Some "IE1164978") 0 "jpg" ≠ filename (Some "IE1164978") 1 "jpg".
Proof.
  apply (filename_distinct (Some "IE1164978") "jpg" 0 1);
    [reflexivity | reflexivity | lia].
Defined.

(** ** Runs of [download_image] *)

Section MoreRuns.

Variable serve : string → gmap string string → option response.
Variable cookie_header : list exchange → string → gmap string string.
Variable json_loads : string → option json.
Variable py_repr : json → string.

#[local] Abbreviation run_loop := (for_images serve cookie_header py_repr).
#[local] Abbreviation url_of := (construct_image_url py_repr).
#[local] Abbreviation loop_trace := (pages serve cookie_header py_repr).

(** A run of [download_image] either ends before its loop, with an
    exception and the directory as it was, or enters the loop. *)
Lemma download_image_cases (handle_url image_type : string)
    (mw mh : option Z) (w : world) :
  let run :=
    download_image serve cookie_header json_loads py_repr handle_url
      image_type mw mh w in
  ((∃ e, run.1 = Raise e)
   ∧ w_fs run.2 = w_fs w
   ∧ ∃ events, w_trace run.2 = w_trace w ++ events
               ∧ writes_of events = [] ∧ displays_of events = []
               ∧ length (session_gets_of events) ≤ 1)
  ∨ (∃ r0 r1 manifest image_ids,
       serve handle_url ∅ = Some r0
       ∧ serve (manifest_url (search_entity (r_url r0))) ∅ = Some r1
       ∧ json_loads (r_content r1) = Some manifest
       ∧ get_image_ids manifest = Ok image_ids
       ∧ (∀ d, w_fs w !! "images" ≠ Some (File d))
       ∧ run = run_loop (length (w_sessions w)) (search_entity (r_url r0))
                 image_type mw mh 0 image_ids
                 (loop_entry handle_url (search_entity (r_url r0)) r1 w)).
Proof.
  intros run. unfold run. rewrite download_image_run.
  destruct (serve handle_url ∅) as [r0|] eqn:Hr0; last first.
  { left. simpl. split; [eauto|]. split; [done|]. eexists [_].
    split_and!; [done..|simpl; lia]. }
  cbv zeta. set (pid := search_entity (r_url r0)).
  destruct (serve (manifest_url pid) ∅) as [r1|] eqn:Hr1; last first.
  { left. simpl. split; [eauto|]. split; [done|]. eexists [_; _].
    split_and!; [done..|simpl; lia]. }
  destruct (json_loads (r_content r1)) as [manifest|] eqn:Hjson; last first.
  { left. simpl. split; [eauto|]. split; [done|]. eexists [_; _].
    split_and!; [done..|simpl; lia]. }
  destruct (get_image_ids manifest) as [image_ids|e] eqn:Hids; last first.
  { left. simpl. split; [eauto|]. split; [done|]. eexists [_; _].
    split_and!; [done..|simpl; lia]. }
  destruct (mkdir_images_cases (manifest_received handle_url pid r1 w))
    as [(d & Hd & ->)|(Hnd & ->)].
  { left. simpl. split; [eauto|]. split; [done|]. eexists [_; _; _].
    split_and!; [by rewrite <-app_assoc|done..|simpl; lia]. }
  right. exists r0, r1, manifest, image_ids. by split_and!.
Qed.

(** X5: without a canvas in the manifest, [download_image] makes the
    directory [images], requests no image, writes no file and ends
    normally. *)
Theorem download_image_no_canvas
    (handle_url image_type : string) (mw mh : option Z) (w : world)
    (r0 r1 : response) (manifest : json) :
  serve handle_url ∅ = Some r0 →
  serve (manifest_url (search_entity (r_url r0))) ∅ = Some r1 →
  json_loads (r_content r1) = Some manifest →
  manifest_items manifest [] →
  (∀ d, w_fs w !! "images" ≠ Some (File d)) →
  let run :=
    download_image serve cookie_header json_loads py_repr handle_url
      image_type mw mh w in
  run.1 = Ok ()
  ∧ w_fs run.2 = <["images" := Dir]> (w_fs w)
  ∧ w_trace run.2 = w_trace w ++
      [EvGet None handle_url ∅;
       EvGet (Some (length (w_sessions w)))
         (manifest_url (search_entity (r_url r0))) ∅;
       EvMkdir "images"].
Proof.
  intros Hr0 Hr1 Hjson Hitems Himages run. unfold run.
  rewrite download_image_run, Hr0. cbv zeta. rewrite Hr1, Hjson.
  rewrite (get_image_ids_Ok manifest [] []) by (done || constructor).
  destruct (mkdir_images_cases
              (manifest_received handle_url (search_entity (r_url r0)) r1 w))
    as [(d & Hd & _)|(_ & ->)]; [by destruct (Himages d)|].
  simpl. split_and!; try done. by rewrite <-app_assoc.
Qed.

(** X6: when the final url of the Handle has no [entity] parameter,
    [download_image] goes on with the pid [None]: it requests the
    manifest of the item named None, and any file it writes is
    named [slv-None-k]. *)
Theorem download_image_unresolved_handle
    (handle_url image_type : string) (mw mh : option Z) (w : world)
    (r0 : response) :
  serve handle_url ∅ = Some r0 →
  no_entity (r_url r0) →
  let run :=
    download_image serve cookie_header json_loads py_repr handle_url
      image_type mw mh w in
  ∃ events,
    w_trace run.2 = w_trace w ++
      EvGet None handle_url ∅
      :: EvGet (Some (length (w_sessions w)))
           "https://rosetta.slv.vic.gov.au/delivery/iiif/presentation/2.1/None/manifest"
           ∅
      :: events
    ∧ ∀ k p d, writes_of events !! k = Some (p, d) →
        p = filename None k image_type.
Proof.
  intros Hr0 Hno run. apply search_entity_None in Hno.
  unfold run. rewrite download_image_run, Hr0. cbv zeta. rewrite Hno.
  change
    "https://rosetta.slv.vic.gov.au/delivery/iiif/presentation/2.1/None/manifest"
    with (manifest_url None).
  destruct (serve (manifest_url None) ∅) as [r1|]; last first.
  { exists []. simpl. by split. }
  destruct (json_loads (r_content r1)) as [manifest|]; last first.
  { exists []. simpl. by split. }
  destruct (get_image_ids manifest) as [image_ids|e]; last first.
  { exists []. simpl. by split. }
  destruct (mkdir_images_cases (manifest_received handle_url None r1 w))
    as [(d & Hd & ->)|(Hnd & ->)].
  { exists [EvMkdir "images"]. simpl.
    split; [by rewrite <-app_assoc|done]. }
  match goal with |- context [run_loop _ _ _ _ _ _ _ ?w4] =>
    change w4 with (loop_entry handle_url None r1 w) end.
  destruct (loop_entry_facts handle_url None r1 w)
    as (Hs & _ & _ & _ & _ & _ & Htr4).
  destruct (for_images_pages serve cookie_header py_repr
              (length (w_sessions w)) None
              image_type mw mh image_ids 0 (loop_entry handle_url None r1 w))
    as (events & Htr & Hpages & _); [done|].
  apply pages_writes in Hpages as [Hw _].
  exists (EvMkdir "images" :: events). split.
  - rewrite Htr, Htr4. by rewrite <-app_assoc.
  - intros k p d Hk. change (writes_of (EvMkdir "images" :: events))
      with (writes_of events) in Hk. by destruct (Hw k p d Hk).
Qed.

(** X7: when the Handle request, the manifest request, the decoding of the
    manifest or [get_image_ids] fails, [download_image] ends with an
    exception before it touches the directory: nothing is created and
    nothing is written. *)
Theorem download_image_fails_before_files
    (handle_url image_type : string) (mw mh : option Z) (w : world) :
  (¬ ∃ r0 r1 manifest image_ids,
       serve handle_url ∅ = Some r0
       ∧ serve (manifest_url (search_entity (r_url r0))) ∅ = Some r1
       ∧ json_loads (r_content r1) = Some manifest
       ∧ get_image_ids manifest = Ok image_ids) →
  let run :=
    download_image serve cookie_header json_loads py_repr handle_url
      image_type mw mh w in
  (∃ e, run.1 = Raise e)
  ∧ w_fs run.2 = w_fs w
  ∧ ∃ events, w_trace run.2 = w_trace w ++ events
              ∧ writes_of events = []
              ∧ ∀ p, EvMkdir p ∉ events.
Proof.
  intros Hfail run. unfold run. rewrite download_image_run.
  destruct (serve handle_url ∅) as [r0|] eqn:Hr0; last first.
  { simpl. split_and!; eauto. eexists [_]. split_and!; try done.
    intros p Hin. by apply list_elem_of_singleton in Hin. }
  cbv zeta. set (pid := search_entity (r_url r0)).
  assert (∀ p, EvMkdir p ∉
            [EvGet None handle_url ∅;
             EvGet (Some (length (w_sessions w))) (manifest_url pid) ∅])
    as Hnomk.
  { intros p Hin. apply elem_of_cons in Hin as [?|Hin]; [done|].
    by apply list_elem_of_singleton in Hin. }
  destruct (serve (manifest_url pid) ∅) as [r1|] eqn:Hr1; last first.
  { simpl. split_and!; eauto. }
  destruct (json_loads (r_content r1)) as [manifest|] eqn:Hjson; last first.
  { simpl. split_and!; eauto. }
  destruct (get_image_ids manifest) as [image_ids|e] eqn:Hids; last first.
  { simpl. split_and!; eauto. }
  destruct Hfail. exists r0, r1, manifest, image_ids. by split_and!.
Qed.

(** What the loop changes in the file system: files of its pages. *)
Lemma for_images_changes (s : nat) (pid : option string)
    (image_type : string) (mw mh : option Z) (image_ids : list json) :
  ∀ (index : nat) (w : world) (q : string),
    w_fs (run_loop s pid image_type mw mh index image_ids w).2 !! q
      = w_fs w !! q
    ∨ ∃ k d,
        index ≤ k < index + length image_ids
        ∧ q = target_key (w_cwd w) (filename pid k image_type)
        ∧ w_fs (run_loop s pid image_type mw mh index image_ids w).2 !! q
          = Some (File d).
Proof.
  induction image_ids as [|image_id rest IH]; intros index w q; [by left|].
  rewrite for_images_cons. cbv zeta.
  set (url := url_of image_id image_type mw mh).
  set (file := filename pid index image_type).
  set (cookies := session_cookies cookie_header (history_of w s) url).
  destruct (serve url cookies) as [r|]; [|by left].
  set (history := history_of w s ++ [(url, r)]).
  destruct (write_bytes_cases file (r_content r)
              (set_history s history (emit (EvGet (Some s) url cookies) w)))
    as [(Hw & _)|(e & Hw & _)]; rewrite Hw; [|by left].
  change (w_cwd (set_history s history
                   (emit (EvGet (Some s) url cookies) w))) with (w_cwd w).
  destruct (page_world s url cookies history
              (target_key (w_cwd w) file) file (r_content r) image_type w)
    as (_ & Hcwd2 & Hfs2 & _).
  cbv zeta in Hcwd2, Hfs2.
  match goal with |- context [run_loop s _ _ _ _ _ _ ?w2] =>
    set (W2 := w2) in * end.
  destruct (IH (S index) W2 q) as [Hsame|(k & d & Hk & Hq & Hfile)].
  - rewrite Hsame, Hfs2.
    destruct (decide (q = target_key (w_cwd w) file)) as [->|Hne].
    + right. exists index, (r_content r). simpl.
      split_and!; [lia..|done|]. by rewrite lookup_insert_eq.
    + left. by rewrite lookup_insert_ne.
  - right. exists k, d. simpl. rewrite <-Hcwd2.
    split_and!; [lia..|done|done].
Qed.

(** The loop writes to the files of its pages and to nothing else. *)
Lemma for_images_frame (s : nat) (pid : option string) (image_type : string)
    (mw mh : option Z) (image_ids : list json) (index : nat) (w : world)
    (q : string) :
  (∀ k, index ≤ k → q ≠ target_key (w_cwd w) (filename pid k image_type)) →
  w_fs (run_loop s pid image_type mw mh index image_ids w).2 !! q
    = w_fs w !! q.
Proof.
  intros Hq.
  destruct (for_images_changes s pid image_type mw mh image_ids index w q)
    as [Hsame|(k & d & Hk & Heq & _)]; [done|].
  destruct (Hq k); [lia|done].
Qed.

(** What the loop has written stays on disk: every write but, possibly,
    a last one that raised. *)
Lemma for_images_on_disk (s : nat) (pid : option string)
    (image_type : string) (mw mh : option Z) (image_ids : list json) :
  no_slash (str_pid pid) = true → no_slash image_type = true →
  ∀ (index : nat) (w : world),
    ∃ wl,
      writes_of (w_trace (run_loop s pid image_type mw mh index image_ids w).2)
        = writes_of (w_trace w) ++ wl
      ∧ ∀ k p d, wl !! k = Some (p, d) →
          (S k < length wl
           ∨ (run_loop s pid image_type mw mh index image_ids w).1 = Ok ()
           ∨ (run_loop s pid image_type mw mh index image_ids w).1
             = Raise RequestException) →
          w_fs (run_loop s pid image_type mw mh index image_ids w).2 !! p
            = Some (File d).
Proof.
  intros Hpid Htype.
  induction image_ids as [|image_id rest IH]; intros index w.
  { exists []. simpl. split; [by rewrite app_nil_r|done]. }
  rewrite for_images_cons. cbv zeta.
  set (url := url_of image_id image_type mw mh).
  set (file := filename pid index image_type).
  set (cookies := session_cookies cookie_header (history_of w s) url).
  destruct (serve url cookies) as [r|]; last first.
  { exists []. simpl. rewrite writes_of_app. simpl. by split. }
  set (history := history_of w s ++ [(url, r)]).
  destruct (write_bytes_cases file (r_content r)
              (set_history s history (emit (EvGet (Some s) url cookies) w)))
    as [(Hw & _)|(e & Hw & He & _)]; rewrite Hw; last first.
  { exists [(file, r_content r)]. simpl. rewrite !writes_of_app. simpl.
    split; [by rewrite app_nil_r|].
    intros [|k] p d Hk [Hlt|[?|[= ->]]]; simpl in *; try done; try lia.
    by destruct (write_error_not_request _ He). }
  change (w_cwd (set_history s history
                   (emit (EvGet (Some s) url cookies) w))) with (w_cwd w).
  assert (target_key (w_cwd w) file = file) as ->
    by (by apply target_key_filename).
  destruct (page_world s url cookies history file file (r_content r)
              image_type w) as (_ & Hcwd2 & Hfs2 & Htr2).
  cbv zeta in Hcwd2, Hfs2, Htr2.
  match goal with |- context [run_loop s _ _ _ _ _ _ ?w2] =>
    set (W2 := w2) in * end.
  destruct (IH (S index) W2) as (wl & Htr & Hdisk).
  exists ((file, r_content r) :: wl). split.
  { rewrite Htr, Htr2.
    change (EvGet (Some s) url cookies :: EvWrite file (r_content r)
            :: display_events image_type file)
      with ([EvGet (Some s) url cookies; EvWrite file (r_content r)]
            ++ display_events image_type file).
    rewrite !writes_of_app, writes_of_display. simpl.
    by rewrite <-app_assoc. }
  intros [|k] p d Hk Hcond; simpl in Hk.
  - injection Hk as <- <-.
    rewrite for_images_frame.
    + rewrite Hfs2. apply lookup_insert_eq.
    + intros k Hk. rewrite target_key_filename by done.
      apply filename_ne; [done..|lia].
  - apply (Hdisk k); [done|]. simpl in Hcond.
    destruct Hcond as [Hlt|Hres]; [left; lia|by right].
Qed.

(** X8: what [download_image] changes in the file system is the directory
    [images], which it makes when there is none, and files of the pages
    of the item the Handle resolves to, at the places their paths lead
    to from the working directory; every other path is left as it was. *)
Theorem download_image_touches_only_its_files
    (handle_url image_type : string) (mw mh : option Z) (w : world)
    (q : string) :
  let run :=
    download_image serve cookie_header json_loads py_repr handle_url
      image_type mw mh w in
  w_fs run.2 !! q ≠ w_fs w !! q →
  (q = "images" ∧ w_fs w !! q = None ∧ w_fs run.2 !! q = Some Dir)
  ∨ ∃ r0 r1 manifest image_ids k d,
      serve handle_url ∅ = Some r0
      ∧ serve (manifest_url (search_entity (r_url r0))) ∅ = Some r1
      ∧ json_loads (r_content r1) = Some manifest
      ∧ get_image_ids manifest = Ok image_ids
      ∧ k < length image_ids
      ∧ q = target_key (w_cwd w)
              (filename (search_entity (r_url r0)) k image_type)
      ∧ w_fs run.2 !! q = Some (File d).
Proof.
  intros run Hq.
  destruct (download_image_cases handle_url image_type mw mh w)
    as [(_ & Hfs & _)
       |(r0 & r1 & manifest & image_ids & Hr0 & Hr1 & Hjson & Hids & Himages
         & Hrun)]; fold run in Hfs || fold run in Hrun.
  { by rewrite Hfs in Hq. }
  set (pid := search_entity (r_url r0)) in *.
  destruct (loop_entry_facts handle_url pid r1 w)
    as (_ & _ & _ & _ & Hcwd4 & Hfs4 & _).
  destruct (for_images_changes (length (w_sessions w)) pid image_type mw mh
              image_ids 0 (loop_entry handle_url pid r1 w) q)
    as [Hsame|(k & d & Hk & Heq & Hfile)]; rewrite <-Hrun in *.
  - left. rewrite Hsame, Hfs4 in Hq. rewrite Hsame, Hfs4.
    destruct (decide (q = "images")) as [->|Hne];
      [|by rewrite lookup_insert_ne in Hq].
    rewrite lookup_insert_eq in Hq. rewrite lookup_insert_eq.
    split_and!; [done| |done].
    destruct (w_fs w !! "images") as [[|d]|] eqn:Hfs; [done| |done].
    by destruct (Himages d).
  - right. exists r0, r1, manifest, image_ids, k, d.
    rewrite Hcwd4 in Heq. split_and!; try done. lia.
Qed.

(** X9: with an [image_type] without a slash, every file [download_image]
    has written is on disk at the end of the run, holding the body of the
    response to its request: all of them when the run ends normally or
    with the exception of a request, all but the last otherwise. *)
Theorem download_image_pages_on_disk
    (handle_url image_type : string) (mw mh : option Z) (w : world) :
  no_slash image_type = true →
  let run :=
    download_image serve cookie_header json_loads py_repr handle_url
      image_type mw mh w in
  ∃ wl,
    writes_of (w_trace run.2) = writes_of (w_trace w) ++ wl
    ∧ ∀ k p d, wl !! k = Some (p, d) →
        (S k < length wl ∨ run.1 = Ok () ∨ run.1 = Raise RequestException) →
        w_fs run.2 !! p = Some (File d).
Proof.
  intros Htype run. unfold run.
  destruct (download_image_cases handle_url image_type mw mh w)
    as [(_ & _ & events & -> & Hnow & _)
       |(r0 & r1 & manifest & image_ids & _ & _ & _ & _ & _ & ->)].
  { exists []. rewrite writes_of_app, Hnow. by split. }
  destruct (for_images_on_disk (length (w_sessions w))
              (search_entity (r_url r0)) image_type mw mh image_ids
              (search_entity_no_slash (r_url r0)) Htype 0
              (loop_entry handle_url (search_entity (r_url r0)) r1 w))
    as (wl & Htr & Hdisk).
  exists wl. split; [|done]. rewrite Htr.
  destruct (loop_entry_facts handle_url (search_entity (r_url r0)) r1 w)
    as (_ & _ & _ & _ & _ & _ & ->).
  rewrite writes_of_app. simpl. by rewrite app_nil_r.
Qed.

Lemma steps_of_app (l1 l2 : list event) :
  steps_of (l1 ++ l2) = steps_of l1 ++ steps_of l2.
Proof. apply omap_app. Qed.

Lemma steps_of_display (image_type file : string) :
  steps_of (display_events image_type file) = [].
Proof. unfold display_events. by destruct (displayable image_type). Qed.

Lemma after_display_write (image_type file : string)
    (events pre post : list event) (p d : string) :
  display_events image_type file ++ events = pre ++ EvWrite p d :: post →
  ∃ pre', pre = display_events image_type file ++ pre'
          ∧ events = pre' ++ EvWrite p d :: post.
Proof.
  unfold display_events. destruct (displayable image_type); simpl.
  - destruct pre as [|e pre]; simpl; [done|].
    intros [= <- ->]. by exists pre.
  - intros ->. by exists pre.
Qed.

(** The requests and writes of the loop are, in this order, those the
    identifiers call for, up to where the loop ends. *)
Lemma pages_steps (s : nat) (pid : option string) (image_type : string)
    (mw mh : option Z) (history : list exchange) (index : nat)
    (image_ids : list json) (events : list event) (res : result unit) :
  loop_trace s pid image_type mw mh history index image_ids events res →
  steps_of events
    `prefix_of` planned_steps (λ image_id, url_of image_id image_type mw mh)
                  (λ k, filename pid k image_type) index image_ids
  ∧ (res = Ok () →
     steps_of events
     = planned_steps (λ image_id, url_of image_id image_type mw mh)
         (λ k, filename pid k image_type) index image_ids).
Proof.
  induction 1 as [history index|history index image_id rest url Hserve
                 |history index image_id rest r e url Hserve He
                 |history index image_id rest r events res url Hserve Hpages IH].
  - done.
  - split; [|done]. apply prefix_cons, prefix_nil.
  - split; [|done]. apply prefix_cons, prefix_cons, prefix_nil.
  - destruct IH as [Hpre Hok].
    change (EvGet (Some s) url (session_cookies cookie_header history url)
            :: EvWrite (filename pid index image_type) (r_content r)
            :: display_events image_type (filename pid index image_type)
            ++ events)
      with ([EvGet (Some s) url (session_cookies cookie_header history url);
             EvWrite (filename pid index image_type) (r_content r)]
            ++ display_events image_type (filename pid index image_type)
            ++ events).
    rewrite !steps_of_app, steps_of_display. simpl. split.
    + by apply prefix_cons, prefix_cons.
    + intros Hres. by rewrite Hok.
Qed.

(** Every write of the loop comes right after a request that was
    answered, and writes the body of the answer. *)
Lemma pages_write_source (s : nat) (pid : option string)
    (image_type : string) (mw mh : option Z) (history : list exchange)
    (index : nat) (image_ids : list json) (events : list event)
    (res : result unit) :
  loop_trace s pid image_type mw mh history index image_ids events res →
  ∀ pre p d post,
    events = pre ++ EvWrite p d :: post →
    ∃ pre' s' url cookies r,
      pre = pre' ++ [EvGet s' url cookies]
      ∧ serve url cookies = Some r
      ∧ d = r_content r.
Proof.
  induction 1 as [history index|history index image_id rest url Hserve
                 |history index image_id rest r e url Hserve He
                 |history index image_id rest r events res url Hserve Hpages IH];
    intros pre p d post Heq.
  - by destruct pre.
  - by destruct pre as [|? [|]].
  - destruct pre as [|e0 [|e1 pre]]; [done| |by destruct pre].
    injection Heq as <- <- <- <-.
      by exists [], (Some s), url,
                (session_cookies cookie_header history url), r.
  - destruct pre as [|e0 [|e1 pre]]; simpl in Heq.
    + done.
    + injection Heq as <- <- <- <-.
      by exists [], (Some s), url,
                (session_cookies cookie_header history url), r.
    + injection Heq as <- <- Heq.
      apply after_display_write in Heq as (pre' & -> & ->).
      destruct (IH pre' p d post eq_refl)
        as (pre'' & s' & url' & cookies & r' & -> & Hr' & ->).
      exists (EvGet (Some s) url (session_cookies cookie_header history url)
              :: EvWrite (filename pid index image_type) (r_content r)
              :: display_events image_type (filename pid index image_type)
              ++ pre''), s', url', cookies, r'.
      split_and!; [|done..]. simpl. by rewrite <-app_assoc.
Qed.

(** X10: the requests and writes of a run after it has made its directory
    are, in this order, those the manifest calls for: for each identifier
    in turn, the request of the url built from it, then the write of the
    file of its position; the run does them up to where it ends, all of
    them when it ends normally; each write comes right after a request
    that was answered, and writes the body of the answer. *)
Theorem download_image_requests_in_order
    (handle_url image_type : string) (mw mh : option Z) (w : world)
    (r0 r1 : response) (manifest : json) (image_ids : list json) :
  serve handle_url ∅ = Some r0 →
  serve (manifest_url (search_entity (r_url r0))) ∅ = Some r1 →
  json_loads (r_content r1) = Some manifest →
  get_image_ids manifest = Ok image_ids →
  let pid := search_entity (r_url r0) in
  let run :=
    download_image serve cookie_header json_loads py_repr handle_url
      image_type mw mh w in
  ∃ events,
    w_trace run.2 = w_trace w ++
      [EvGet None handle_url ∅;
       EvGet (Some (length (w_sessions w))) (manifest_url pid) ∅;
       EvMkdir "images"] ++ events
    ∧ steps_of events
        `prefix_of`
        planned_steps (λ image_id, url_of image_id image_type mw mh)
          (λ k, filename pid k image_type) 0 image_ids
    ∧ (run.1 = Ok () →
       steps_of events
       = planned_steps (λ image_id, url_of image_id image_type mw mh)
           (λ k, filename pid k image_type) 0 image_ids)
    ∧ (∀ pre p d post,
         events = pre ++ EvWrite p d :: post →
         ∃ pre' s' url cookies r,
           pre = pre' ++ [EvGet s' url cookies]
           ∧ serve url cookies = Some r
           ∧ d = r_content r).
Proof.
  intros Hr0 Hr1 Hjson Hids pid run.
  destruct (mkdir_images_cases (manifest_received handle_url pid r1 w))
    as [(d & _ & Hmk)|(Himages & _)].
  { unfold run. rewrite download_image_run, Hr0. cbv zeta.
    fold pid in Hr1. fold pid. rewrite Hr1, Hjson, Hids, Hmk.
    exists []. simpl. split_and!.
    - by rewrite <-app_assoc.
    - apply prefix_nil.
    - done.
    - intros pre p d' post Heq. by destruct pre. }
  destruct (download_image_loop serve cookie_header json_loads py_repr
              handle_url image_type mw mh w r0 r1
              manifest image_ids Hr0 Hr1 Hjson Hids Himages)
    as (_ & events & Htr & Hpages & _).
  fold pid run in Htr, Hpages.
  exists events. split; [done|].
  destruct (pages_steps _ _ _ _ _ _ _ _ _ _ Hpages) as [Hpre Hok].
  split_and!; [done..|].
  by apply (pages_write_source _ _ _ _ _ _ _ _ _ _ Hpages).
Qed.

Lemma displayable_no_slash (image_type : string) :
  displayable image_type = true → no_slash image_type = true.
Proof.
  unfold displayable.
  intros [H|H]%orb_true_iff; apply String.eqb_eq in H; by subst.
Qed.

Lemma displays_of_occurs (pre post : list event) (h : string) :
  displays_of (pre ++ EvDisplay h :: post) ≠ [].
Proof.
  unfold displays_of. rewrite omap_app. simpl.
  by destruct (omap _ pre).
Qed.

(** What the loop shows: nothing for an [image_type] other than [jpg] and
    [png]; otherwise each page after it is written. *)
Lemma pages_displays (s : nat) (pid : option string) (image_type : string)
    (mw mh : option Z) (history : list exchange) (index : nat)
    (image_ids : list json) (events : list event) (res : result unit) :
  loop_trace s pid image_type mw mh history index image_ids events res →
  (displayable image_type = false → displays_of events = [])
  ∧ (res = Ok () → displayable image_type = true →
     displays_of events = image_html <$> (writes_of events).*1).
Proof.
  induction 1 as [history index|history index image_id rest url Hserve
                 |history index image_id rest r e url Hserve He
                 |history index image_id rest r events res url Hserve Hpages IH].
  - done.
  - done.
  - done.
  - destruct IH as (Hnone & Hok).
    change (EvGet (Some s) url (session_cookies cookie_header history url)
            :: EvWrite (filename pid index image_type) (r_content r)
            :: display_events image_type (filename pid index image_type)
            ++ events)
      with ([EvGet (Some s) url (session_cookies cookie_header history url);
             EvWrite (filename pid index image_type) (r_content r)]
            ++ display_events image_type (filename pid index image_type)
            ++ events).
    rewrite !writes_of_app, writes_of_display.
    unfold displays_of at 1 2. rewrite !omap_app.
    fold (displays_of events).
    unfold display_events. destruct (displayable image_type) eqn:Hd; simpl.
    + split; [done|]. intros Hres _. by rewrite Hok.
    + split; [|done]. intros _. by apply Hnone.
Qed.

(** A page that the loop shows has just been written, and its file is
    on disk at the end. *)
Lemma for_images_displays (s : nat) (pid : option string)
    (image_type : string) (mw mh : option Z) (image_ids : list json) :
  no_slash (str_pid pid) = true → displayable image_type = true →
  ∀ (index : nat) (w : world),
    ∃ events,
      w_trace (run_loop s pid image_type mw mh index image_ids w).2
        = w_trace w ++ events
      ∧ ∀ pre h post,
          events = pre ++ EvDisplay h :: post →
          ∃ pre' p d,
            pre = pre' ++ [EvWrite p d]
            ∧ h = image_html p
            ∧ w_fs (run_loop s pid image_type mw mh index image_ids w).2 !! p
              = Some (File d).
Proof.
  intros Hpid Hshow.
  pose proof (displayable_no_slash _ Hshow) as Htype.
  induction image_ids as [|image_id rest IH]; intros index w.
  { exists []. simpl. split; [by rewrite app_nil_r|].
    intros pre h post Heq. by destruct pre. }
  rewrite for_images_cons. cbv zeta.
  set (url := url_of image_id image_type mw mh).
  set (file := filename pid index image_type).
  set (cookies := session_cookies cookie_header (history_of w s) url).
  destruct (serve url cookies) as [r|]; last first.
  { exists [EvGet (Some s) url cookies]. split; [done|].
    intros pre h post Heq. by destruct pre as [|? [|]]. }
  set (history := history_of w s ++ [(url, r)]).
  destruct (write_bytes_cases file (r_content r)
              (set_history s history (emit (EvGet (Some s) url cookies) w)))
    as [(Hw & _)|(e & Hw & He & _)]; rewrite Hw; last first.
  { exists [EvGet (Some s) url cookies; EvWrite file (r_content r)].
    split; [simpl; by rewrite <-app_assoc|].
    intros pre h post Heq. by destruct pre as [|? [|? [|]]]. }
  change (w_cwd (set_history s history
                   (emit (EvGet (Some s) url cookies) w))) with (w_cwd w).
  assert (target_key (w_cwd w) file = file) as ->
    by (by apply target_key_filename).
  destruct (page_world s url cookies history file file (r_content r)
              image_type w) as (_ & Hcwd2 & Hfs2 & Htr2).
  cbv zeta in Hcwd2, Hfs2, Htr2.
  match goal with |- context [run_loop s _ _ _ _ _ _ ?w2] =>
    set (W2 := w2) in * end.
  destruct (IH (S index) W2) as (events & Htr & Hshown).
  unfold display_events in Htr2. rewrite Hshow in Htr2.
  exists (EvGet (Some s) url cookies :: EvWrite file (r_content r)
          :: EvDisplay (image_html file) :: events).
  split.
  { rewrite Htr, Htr2. by rewrite <-app_assoc. }
  intros pre h post Heq.
  destruct pre as [|e0 [|e1 [|e2 pre]]]; simpl in Heq; [done|done|..].
  - injection Heq as <- <- <- <-.
    exists [EvGet (Some s) url cookies], file, (r_content r).
    split_and!; [done..|].
    rewrite for_images_frame.
    + rewrite Hfs2. apply lookup_insert_eq.
    + intros k Hk. rewrite target_key_filename by done.
      apply filename_ne; [done..|lia].
  - injection Heq as <- <- <- ->.
    destruct (Hshown pre h post eq_refl) as (pre' & p & d & -> & -> & Hfile).
    by exists (EvGet (Some s) url cookies :: EvWrite file (r_content r)
               :: EvDisplay (image_html file) :: pre'), p, d.
Qed.

(** X11: [download_image] shows nothing for an [image_type] other than [jpg]
    and [png]; what it shows is a page it has just written, the file of
    which is on disk at the end of the run; and a run that ends normally
    has shown every page, in order. *)
Theorem download_image_displays
    (handle_url image_type : string) (mw mh : option Z) (w : world) :
  let run :=
    download_image serve cookie_header json_loads py_repr handle_url
      image_type mw mh w in
  ∃ events,
    w_trace run.2 = w_trace w ++ events
    ∧ (displayable image_type = false → displays_of events = [])
    ∧ (∀ pre h post,
         events = pre ++ EvDisplay h :: post →
         ∃ pre' p d,
           pre = pre' ++ [EvWrite p d]
           ∧ h = image_html p
           ∧ w_fs run.2 !! p = Some (File d))
    ∧ (run.1 = Ok () → displayable image_type = true →
       displays_of events = image_html <$> (writes_of events).*1).
Proof.
  intros run. unfold run.
  destruct (download_image_cases handle_url image_type mw mh w)
    as [((e & He) & _ & events & Htr & Hnow & Hnod & _)
       |(r0 & r1 & manifest & image_ids & _ & _ & _ & _ & _ & ->)].
  { exists events. rewrite Hnow, Hnod, He. split_and!; try done.
    intros pre h post ->. by destruct (displays_of_occurs pre post h). }
  set (pid := search_entity (r_url r0)).
  destruct (loop_entry_facts handle_url pid r1 w)
    as (Hs & _ & _ & _ & _ & _ & Htr4).
  destruct (for_images_pages serve cookie_header py_repr
              (length (w_sessions w)) pid
              image_type mw mh image_ids 0 (loop_entry handle_url pid r1 w))
    as (events & Htr & Hpages & _); [done|].
  apply pages_displays in Hpages as [Hnone Hok].
  exists ([EvGet None handle_url ∅;
           EvGet (Some (length (w_sessions w))) (manifest_url pid) ∅;
           EvMkdir "images"] ++ events).
  split_and!.
  - by rewrite Htr, Htr4, <-app_assoc.
  - done.
  - intros pre h post Heq.
    destruct pre as [|e0 [|e1 [|e2 pre]]]; simpl in Heq; [done..|].
    injection Heq as <- <- <- ->.
    destruct (displayable image_type) eqn:Hshow; last first.
    { destruct (displays_of_occurs pre post h). by apply Hnone. }
    destruct (for_images_displays (length (w_sessions w)) pid image_type
                mw mh image_ids (search_entity_no_slash (r_url r0)) Hshow 0
                (loop_entry handle_url pid r1 w))
      as (events' & Htr' & Hshown).
    rewrite Htr in Htr'. apply app_inv_head in Htr'. subst events'.
    destruct (Hshown pre h post eq_refl) as (pre' & p & d & -> & -> & Hfile).
    by exists (EvGet None handle_url ∅
               :: EvGet (Some (length (w_sessions w))) (manifest_url pid) ∅
               :: EvMkdir "images" :: pre'), p, d.
  - done.
Qed.

End MoreRuns.

Lemma download_image_no_canvas_witness :
  (download_image empty_manifest_server host_scoped fixture_loads demo_repr
     demo_handle "jpg" None None empty_world).1 = Ok ().
Proof.
  refine (proj1 (download_image_no_canvas empty_manifest_server host_scoped
    fixture_loads demo_repr demo_handle "jpg" None None empty_world
    demo_viewer empty_manifest (manifest_of (JArr [])) _ _ _ _ _)).
  - reflexivity.
  - vm_compute. reflexivity.
  - vm_compute. reflexivity.
  - eexists _, _, [], _. split; [reflexivity|].
    rewrite !lookup_singleton_eq. split_and!; try reflexivity. by left.
  - intros d. simpl. by rewrite lookup_empty.
Defined.

Lemma download_image_unresolved_handle_witness :
  ∃ events,
    w_trace (download_image static_server host_scoped demo_loads demo_repr
               demo_handle "jpg" None None empty_world).2
    = [] ++
      EvGet None demo_handle ∅
      :: EvGet (Some 0)
           "https://rosetta.slv.vic.gov.au/delivery/iiif/presentation/2.1/None/manifest"
           ∅
      :: events
    ∧ ∀ k p d, writes_of events !! k = Some (p, d) → p = filename None k "jpg".
Proof.
  refine (download_image_unresolved_handle static_server host_scoped
    demo_loads demo_repr demo_handle "jpg" None None empty_world
    {| r_url := "https://www.slv.vic.gov.au/"; r_status := 200;
       r_content := "<html></html>"; r_cookies := ∅ |} _ _).
  - reflexivity.
  - apply search_entity_None. vm_compute. reflexivity.
Defined.

Lemma download_image_fails_before_files_witness :
  w_fs (download_image static_server host_scoped demo_loads demo_repr
          demo_handle "jpg" None None empty_world).2 = ∅.
Proof.
  refine (proj1 (proj2 (download_image_fails_before_files static_server
    host_scoped demo_loads demo_repr demo_handle "jpg" None None empty_world
    _))).
  intros (r0 & r1 & manifest & image_ids & Hr0 & Hr1 & Hjson & _).
  injection Hr0 as <-. vm_compute in Hr1. injection Hr1 as <-.
  vm_compute in Hjson. discriminate Hjson.
Defined.

(** With an [image_type] that leads out of the directory [images], the
    page is written where the path leads: here over the notes in the
    working directory. *)
Lemma download_image_writes_where_the_path_leads :
  filename (Some "IE1164978") 0 "x/../../notes.txt"
    = "images/slv-IE1164978-0.x/../../notes.txt"
  ∧ w_fs notes_world !! "notes.txt" = Some (File "kept")
  ∧ w_fs (download_image any_image_server host_scoped demo_loads demo_repr
            demo_handle "x/../../notes.txt" None None notes_world).2
      !! "notes.txt" = Some (File "JPEG").
Proof. split_and!; by vm_compute. Qed.

Lemma download_image_touches_only_its_files_witness :
  ("notes.txt" = "images"
   ∧ w_fs notes_world !! "notes.txt" = None
   ∧ w_fs (download_image any_image_server host_scoped demo_loads demo_repr
             demo_handle "x/../../notes.txt" None None notes_world).2
       !! "notes.txt" = Some Dir)
  ∨ ∃ r0 r1 manifest image_ids k d,
      any_image_server demo_handle ∅ = Some r0
      ∧ any_image_server (manifest_url (search_entity (r_url r0))) ∅ = Some r1
      ∧ demo_loads (r_content r1) = Some manifest
      ∧ get_image_ids manifest = Ok image_ids
      ∧ k < length image_ids
      ∧ "notes.txt"
        = target_key (w_cwd notes_world)
            (filename (search_entity (r_url r0)) k "x/../../notes.txt")
      ∧ w_fs (download_image any_image_server host_scoped demo_loads
                demo_repr demo_handle "x/../../notes.txt" None None
                notes_world).2 !! "notes.txt" = Some (File d).
Proof.
  apply (download_image_touches_only_its_files any_image_server host_scoped
           demo_loads demo_repr demo_handle "x/../../notes.txt" None None
           notes_world "notes.txt").
  vm_compute. intros Heq. discriminate Heq.
Defined.

Lemma download_image_pages_on_disk_witness :
  ∃ wl,
    writes_of (w_trace (download_image demo_server host_scoped demo_loads
                          demo_repr demo_handle "jpg" None None
                          empty_world).2)
    = writes_of (w_trace empty_world) ++ wl
    ∧ ∀ k p d, wl !! k = Some (p, d) →
        (S k < length wl
         ∨ (download_image demo_server host_scoped demo_loads demo_repr
              demo_handle "jpg" None None empty_world).1 = Ok ()
         ∨ (download_image demo_server host_scoped demo_loads demo_repr
              demo_handle "jpg" None None empty_world).1
           = Raise RequestException) →
        w_fs (download_image demo_server host_scoped demo_loads demo_repr
                demo_handle "jpg" None None empty_world).2 !! p
        = Some (File d).
Proof.
  apply (download_image_pages_on_disk demo_server host_scoped demo_loads
           demo_repr demo_handle "jpg" None None empty_world).
  reflexivity.
Defined.

Lemma download_image_requests_in_order_witness :
  ∃ events,
    w_trace (download_image demo_server host_scoped demo_loads demo_repr
               demo_handle "jpg" None None empty_world).2
    = [] ++
      [EvGet None demo_handle ∅;
       EvGet (Some 0) (manifest_url (Some "IE1164978")) ∅;
       EvMkdir "images"] ++ events
    ∧ steps_of events
        `prefix_of`
        [Request "https://img.example/service1/full/max/0/default.jpg";
         Store "images/slv-IE1164978-0.jpg"].
Proof.
  destruct (download_image_requests_in_order demo_server host_scoped
    demo_loads demo_repr demo_handle "jpg" None None empty_world demo_viewer
    demo_manifest
    (manifest_of (JArr [canvas_of (JStr "https://img.example/service1")]))
    [JStr "https://img.example/service1"])
    as (events & Htr & Hpre & _).
  - reflexivity.
  - vm_compute. reflexivity.
  - vm_compute. reflexivity.
  - vm_compute. reflexivity.
  - exists events. split; [exact Htr | exact Hpre].
Defined.
